(** * GIFT-Eval harness: dataset keys, result rows, evaluation loops, job scripts

    A shallow embedding of the bookkeeping code of the GIFT-Eval notebooks
    (notebooks/feedforward.ipynb, notebooks/chronos.ipynb,
    notebooks/moirai.ipynb, dataset_info.ipynb) and of the SLURM job scripts
    (scripts/run_load_dataset.sh and its three-term variant), with the
    properties of that code stated and proved.

    Conventions.
    - Python [str] is [string]; [str.lower] is modelled on ASCII, which is
      the alphabet of every dataset name of the benchmark.
    - A Python [dict] with string keys is a [gmap string _]; a missing key
      raises [KeyError], an index out of range raises [IndexError].
    - Code that reads or writes files, or calls the dataset and evaluation
      libraries, runs in a small state-and-exception monad over a [world]:
      the files written so far and the trace of library calls.
    - A shell script is a transformer of a [shell] state: the file
      operations it performed and what it printed. *)

From Stdlib Require Import ZArith Lia Ascii String List DecimalString.
From Stdlib Require Import DecimalPos DecimalZ.
From stdpp Require Import gmap strings list fin_maps.

Local Open Scope string_scope.

(* ===================================================================== *)
(** ** Python strings *)
(* ===================================================================== *)

Module PyStr.

(** [c in s] for a one-character needle. *)
Fixpoint str_in (c : ascii) (s : string) : bool :=
  match s with
  | EmptyString => false
  | String a s' => if Ascii.eqb a c then true else str_in c s'
  end.

(** [s.split(c)] for a one-character separator: every occurrence of the
    separator ends a segment, so a string with [n] separators has
    [n + 1] segments. *)
Fixpoint split (c : ascii) (s : string) : list string :=
  match s with
  | EmptyString => [EmptyString]
  | String a s' =>
      if Ascii.eqb a c then EmptyString :: split c s'
      else match split c s' with
           | seg :: segs => String a seg :: segs
           | [] => [String a EmptyString]
           end
  end.

(** [str.lower] on one ASCII character: 'A'..'Z' move to 'a'..'z'. *)
Definition lower_ascii (a : ascii) : ascii :=
  let n := nat_of_ascii a in
  if (65 <=? n)%nat && (n <=? 90)%nat then ascii_of_nat (n + 32) else a.

(** [s.lower()]. *)
Fixpoint lower (s : string) : string :=
  match s with
  | EmptyString => EmptyString
  | String a s' => String (lower_ascii a) (lower s')
  end.

Definition slash : ascii := "/"%char.

(** The text of the string after its first [c]; the empty string when
    there is none. *)
Fixpoint after_first (c : ascii) (s : string) : string :=
  match s with
  | EmptyString => EmptyString
  | String a s' => if Ascii.eqb a c then s' else after_first c s'
  end.

End PyStr.

Import PyStr.

(* ===================================================================== *)
(** ** Exceptions *)
(* ===================================================================== *)

Inductive exn :=
| KeyError (k : string)
| IndexError.

Inductive outcome (A : Type) :=
| Ok (a : A)
| Raise (e : exn).
Arguments Ok {A} a.
Arguments Raise {A} e.

Global Instance outcome_ret : MRet outcome := @Ok.
Global Instance outcome_bind : MBind outcome :=
  λ A B f m, match m with Ok a => f a | Raise e => Raise e end.

(** [d[k]] *)
Definition getitem {A} (d : gmap string A) (k : string) : outcome A :=
  match d !! k with
  | Some v => Ok v
  | None => Raise (KeyError k)
  end.

(** [xs[i]] *)
Definition index {A} (xs : list A) (i : nat) : outcome A :=
  match xs !! i with
  | Some v => Ok v
  | None => Raise IndexError
  end.

(** [d.get(k, dflt)] *)
Definition dict_get {A} (d : gmap string A) (k : string) (dflt : A) : A :=
  default dflt (d !! k).

(* ===================================================================== *)
(** ** Dataset keys *)
(* ===================================================================== *)

(** [xs[0]] of a list of strings that is known to be non-empty (the result
    of [split], see [split_cons]). *)
Definition item0 (xs : list string) : string := hd EmptyString xs.

(** notebooks/feedforward.ipynb:
    [dataset_name.split("/")[0] if "/" in dataset_name
     else dataset_name.lower()] *)
Definition get_dataset_key (dataset_name : string) : string :=
  if str_in slash dataset_name then item0 (split slash dataset_name)
  else lower dataset_name.

(** The [pretty_names] dict of dataset_info.ipynb, chronos.ipynb and
    moirai.ipynb. *)
Definition pretty_names : gmap string string :=
  <["saugeenday" := "saugeen"]>
  (<["temperature_rain_with_missing" := "temperature_rain"]>
  (<["kdd_cup_2018_with_missing" := "kdd_cup_2018"]>
  (<["car_parts_with_missing" := "car_parts"]> ∅))).

(** dataset_info.ipynb:
    [key = name.split("/")[0] if "/" in name else name;
     key = key.lower(); return pretty_names.get(key, key)] *)
Definition get_key (name : string) : string :=
  let key := if str_in slash name then item0 (split slash name) else name in
  let key := lower key in
  dict_get pretty_names key key.

(** One entry of dataset_properties.json. The file is not part of the
    sources; an entry is taken to carry the three fields the notebooks
    read from it. *)
Record props := {
  frequency : string;
  domain : string;
  num_variates : Z
}.

(** [terms = ["short", "medium", "long"]] *)
Definition terms : list string := ["short"; "medium"; "long"].

(** The header row written when a results file is initialised. *)
Definition header : list string :=
  [ "dataset";
    "model";
    "eval_metrics/MSE[mean]";
    "eval_metrics/MSE[0.5]";
    "eval_metrics/MAE[0.5]";
    "eval_metrics/MASE[0.5]";
    "eval_metrics/MAPE[0.5]";
    "eval_metrics/sMAPE[0.5]";
    "eval_metrics/MSIS";
    "eval_metrics/RMSE[mean]";
    "eval_metrics/NRMSE[mean]";
    "eval_metrics/ND[0.5]";
    "eval_metrics/mean_weighted_sum_quantile_loss";
    "domain";
    "num_variates" ].

(** The eleven metric columns, as the specification lists them. *)
Definition metric_columns : list string :=
  [ "MSE[mean]"; "MSE[0.5]"; "MAE[0.5]"; "MASE[0.5]"; "MAPE[0.5]";
    "sMAPE[0.5]"; "MSIS"; "RMSE[mean]"; "NRMSE[mean]"; "ND[0.5]";
    "mean_weighted_sum_quantile_loss" ].

(** Calls into the dataset and evaluation libraries, as the trace records
    them: a [Dataset(name=, term=, to_univariate=)] construction and an
    [evaluate_model] call on the test data of such a dataset. *)
Inductive event :=
| EDataset (name term : string) (to_univariate : bool)
| EEvaluate (name term : string) (to_univariate : bool).

Global Instance event_eq_dec : EqDecision event.
Proof. solve_decision. Defined.

(** A [Dataset] object: the arguments it was constructed with. *)
Record dataset := {
  d_name : string;
  d_term : string;
  d_to_univariate : bool
}.

(** The (dataset, term) pairs on which a trace called [evaluate_model]. *)
Definition evaluated (tr : list event) : list (string * string) :=
  flat_map (fun ev => match ev with
                      | EEvaluate n t _ => [(n, t)]
                      | EDataset _ _ _ => []
                      end) tr.

(* ===================================================================== *)
(** ** SLURM array tasks *)
(* ===================================================================== *)

Module Slurm.

(** Shell arithmetic: [/] truncates toward zero and [%] takes the sign of
    the dividend.  The shell stops the expansion with an error on a zero
    divisor; the scripts divide by the number of dataset names, and the
    properties below are stated for a positive number of names. *)
Definition sh_div (a b : Z) : Z := Z.quot a b.
Definition sh_mod (a b : Z) : Z := Z.rem a b.

(** [term_index=$((SLURM_ARRAY_TASK_ID / num_names))] *)
Definition term_index (task_id num_names : Z) : Z := sh_div task_id num_names.

(** [name_index=$((SLURM_ARRAY_TASK_ID % num_names))] *)
Definition name_index (task_id num_names : Z) : Z := sh_mod task_id num_names.

(** [${xs[$i]}] for a non-negative index: the element, or the empty
    string past the end of the array. *)
Definition sh_elem (xs : list string) (i : Z) : string :=
  default EmptyString (xs !! Z.to_nat i).

(** The (term, name) pair that the load-datasets array job gives to a
    task. *)
Definition task_pair (names : list string) (task_id : Z) : string * string :=
  let num_names := Z.of_nat (length names) in
  (sh_elem terms (term_index task_id num_names),
   sh_elem names (name_index task_id num_names)).

(** The task ids [0 .. n - 1]. *)
Definition task_ids (n : nat) : list Z := map Z.of_nat (seq 0 n).

End Slurm.

(* ===================================================================== *)
(** ** Job scripts *)
(* ===================================================================== *)

Module JobScript.

Record slurm_env := {
  SLURM_JOB_NAME : string;
  SLURM_JOB_ID : string;
  SLURM_ARRAY_JOB_ID : string;      (* empty when the job is not an array *)
  SLURM_ARRAY_TASK_ID : Z
}.

Inductive fs_op :=
| Mkdir (path : string)
| Touch (path : string)
| WriteFile (path content : string).

(** What a script has done so far: file operations, lines on stdout and
    stderr, and how many times it has read the clock. *)
Record shell := {
  ops : list fs_op;
  stdout : list string;
  stderr : list string;
  ticks : nat
}.

Definition init_shell : shell :=
  {| ops := []; stdout := []; stderr := []; ticks := 0 |}.

Definition show_Z (z : Z) : string := NilZero.string_of_int (Z.to_int z).

Definition do_op (o : fs_op) (sh : shell) : shell :=
  {| ops := ops sh ++ [o]; stdout := stdout sh; stderr := stderr sh;
     ticks := ticks sh |}.

Definition echo (line : string) (sh : shell) : shell :=
  {| ops := ops sh; stdout := stdout sh ++ [line]; stderr := stderr sh;
     ticks := ticks sh |}.

Definition echo_err (line : string) (sh : shell) : shell :=
  {| ops := ops sh; stdout := stdout sh; stderr := stderr sh ++ [line];
     ticks := ticks sh |}.

(** Does the list of operations create or write the file at [path]? *)
Definition touches (path : string) (o : fs_op) : bool :=
  match o with
  | Mkdir _ => false
  | Touch p => bool_decide (p = path)
  | WriteFile p _ => bool_decide (p = path)
  end.

Definition file_written (path : string) (os : list fs_op) : bool :=
  existsb (touches path) os.

Section Script.

(** The wall clock: the text [date] prints at its [n]-th reading. *)
Variable clock : nat -> string.

(** The exit status of [python] on a command line. *)
Variable python : list string -> Z.

(** utils.sh, [get_timestamp] *)
Definition get_timestamp (sh : shell) : string * shell :=
  (clock (ticks sh),
   {| ops := ops sh; stdout := stdout sh; stderr := stderr sh;
      ticks := S (ticks sh) |}).

(** utils.sh, [log_info] *)
Definition log_info (msg : string) (sh : shell) : shell :=
  let '(timestamp, sh) := get_timestamp sh in
  echo ("[" ++ timestamp ++ "] " ++ msg) sh.

(** utils.sh, [log_error] *)
Definition log_error (msg : string) (sh : shell) : shell :=
  let '(timestamp, sh) := get_timestamp sh in
  echo_err ("[" ++ timestamp ++ "] " ++ msg) sh.

(** utils.sh, [get_done_dir] *)
Definition get_done_dir (env : slurm_env) (sh : shell) : string * shell :=
  let base_dir := "./logs/" ++ SLURM_JOB_NAME env ++ "/done" in
  let done_dir :=
    if bool_decide (SLURM_ARRAY_JOB_ID env = EmptyString) then base_dir
    else base_dir ++ "/" ++ SLURM_ARRAY_JOB_ID env in
  (done_dir, do_op (Mkdir done_dir) sh).

(** utils.sh, [get_done_file]: the marker is created by [touch]. *)
Definition get_done_file (env : slurm_env) (sh : shell) : string * shell :=
  let '(done_dir, sh) := get_done_dir env sh in
  let done_file :=
    if bool_decide (SLURM_ARRAY_JOB_ID env = EmptyString)
    then SLURM_JOB_ID env ++ ".done"
    else show_Z (SLURM_ARRAY_TASK_ID env) ++ ".done" in
  let done_path := done_dir ++ "/" ++ done_file in
  (done_path, do_op (Touch done_path) sh).

(** The path of the marker file of a job, as [get_done_file] builds
    it. *)
Definition done_path_of (env : slurm_env) : string :=
  fst (get_done_file env init_shell).

(** utils.sh, [log_job_info]: the lines handed to [column]. *)
Definition log_job_info (env : slurm_env) (sh : shell) : shell :=
  let or_na s := if bool_decide (s = EmptyString) then "N/A" else s in
  let tab := String (ascii_of_nat 9) EmptyString in
  let line k v := k ++ tab ++ "|" ++ tab ++ v in
  echo (line "Devices per Node" "N/A")
    (echo (line "Number of Nodes" "N/A")
    (echo (line "Array Task ID" (show_Z (SLURM_ARRAY_TASK_ID env)))
    (echo (line "Array Job ID" (or_na (SLURM_ARRAY_JOB_ID env)))
    (echo (line "Job ID" (or_na (SLURM_JOB_ID env)))
    (echo (line "Job Name" (or_na (SLURM_JOB_NAME env)))
    (echo (line "-----" "-----")
    (echo (line "Field" "Value") sh))))))).

(** The shared tail of the job scripts:
    [if python ...; then log; done_file=$(get_done_file); echo > done_file
     else log_error; exit 1 fi].  Returns the shell state and the exit
    status of the script. *)
Definition run_and_mark (env : slurm_env) (cmd : list string)
    (ok_msg err_msg done_msg : string) (sh : shell) : shell * Z :=
  if (python cmd =? 0)%Z then
    let sh := log_info ok_msg sh in
    let sh := log_error "No errors!" sh in
    let '(done_file, sh) := get_done_file env sh in
    let '(end_time, sh) := get_timestamp sh in
    let sh :=
      do_op (WriteFile done_file ("[" ++ end_time ++ "] " ++ done_msg)) sh in
    (sh, 0%Z)
  else
    let sh := log_error err_msg sh in
    (sh, 1%Z).

(** scripts/run_load_dataset.sh; [names] is what [find] lists under
    datasets/pretrain. *)
Definition run_load_dataset (env : slurm_env) (names : list string)
    : shell * Z :=
  let sh := do_op (Mkdir "logs") init_shell in
  let name := Slurm.sh_elem names (SLURM_ARRAY_TASK_ID env) in
  let sh := log_job_info env sh in
  run_and_mark env ["load_dataset.py"; "--name=" ++ name]
    ("Successfully finished " ++ SLURM_JOB_NAME env ++ "!")
    ("ERROR: " ++ SLURM_JOB_NAME env ++ "!")
    ("Done with " ++ SLURM_JOB_NAME env ++ "!") sh.

(** The three-term variant of the load-datasets script: one array task
    per (term, name) pair. *)
Definition run_load_dataset_terms (env : slurm_env) (names : list string)
    : shell * Z :=
  let sh := do_op (Mkdir "logs") init_shell in
  let num_names := Z.of_nat (length names) in
  let sh :=
    log_info ("Number of dataset names: " ++ show_Z num_names) sh in
  let '(term, name) := Slurm.task_pair names (SLURM_ARRAY_TASK_ID env) in
  let sh := log_job_info env sh in
  let message :=
    "pretraining dataset " ++ show_Z (SLURM_ARRAY_TASK_ID env + 1) ++ ": "
    ++ name ++ " (" ++ term ++ ")" in
  let sh := log_info ("Loading " ++ message) sh in
  run_and_mark env ["load_dataset.py"; "--name"; name; "--term"; term]
    ("Successfully loaded " ++ message ++ "!")
    ("ERROR: Failed to load " ++ message ++ "!")
    ("Finished loading " ++ message ++ "!") sh.

End Script.

End JobScript.

(* ===================================================================== *)
(** ** More string operations *)
(* ===================================================================== *)

(** [s.startswith(p)] *)
Fixpoint startswith (s p : string) : bool :=
  match p, s with
  | EmptyString, _ => true
  | String _ _, EmptyString => false
  | String b p', String a s' => Ascii.eqb a b && startswith s' p'
  end.

(** [needle in hay] for two strings. *)
Fixpoint str_contains (needle hay : string) : bool :=
  if startswith hay needle then true
  else match hay with
       | EmptyString => false
       | String _ hay' => str_contains needle hay'
       end.

(** [${s//c/d}]: every [c] of the string replaced by [d]. *)
Fixpoint replace_char (c d : ascii) (s : string) : string :=
  match s with
  | EmptyString => EmptyString
  | String a s' => String (if Ascii.eqb a c then d else a) (replace_char c d s')
  end.

(* ===================================================================== *)
(** ** chronos.ipynb: the log filter and the prediction loop *)
(* ===================================================================== *)

Module WarningFilter.

(** [WarningFilter(text_to_filter)] *)
Record t := { text_to_filter : string }.

(** [filter(self, record)], on the message of the record: a record is
    kept when [filter] returns [True]. *)
Definition filter (self : t) (message : string) : bool :=
  negb (str_contains (text_to_filter self) message).

End WarningFilter.

Module ChronosPredictor.

(** How one pass over the batches ends: with the forecast outputs, with
    [torch.cuda.OutOfMemoryError], or with another exception. *)
Inductive attempt (Out X : Type) :=
| Outputs (forecast_outputs : Out)
| OutOfMemory
| Raised (e : X).
Arguments Outputs {Out X} forecast_outputs.
Arguments OutOfMemory {Out X}.
Arguments Raised {Out X} e.

(** What the loop of [predict] does with the end of a pass: it goes
    on after [OutOfMemoryError], and ends with anything else. *)
Definition ended {Out X} (a : attempt Out X) : option (Out + X) :=
  match a with
  | Outputs forecast_outputs => Some (inl forecast_outputs)
  | Raised e => Some (inr e)
  | OutOfMemory => None
  end.

Section Predict.

Context {Out X : Type}.

(** The pass over [batcher(test_data_input, batch_size)] made at the
    [n]-th attempt with a batch size. *)
Variable run_batches : nat -> nat -> attempt Out X.

(** The [while True: try: ... break except OutOfMemoryError:
    batch_size //= 2] loop of [predict], from its [n]-th attempt on, for at
    most [fuel] attempts: the outputs or the exception it ends with, and
    [None] when the attempts are used up. *)
Fixpoint predict_loop (fuel n batch_size : nat) : option (Out + X) :=
  match fuel with
  | O => None
  | S fuel' =>
      match run_batches n batch_size with
      | Outputs forecast_outputs => Some (inl forecast_outputs)
      | Raised e => Some (inr e)
      | OutOfMemory => predict_loop fuel' (S n) (batch_size / 2)
      end
  end.

End Predict.

End ChronosPredictor.

(* ===================================================================== *)
(** ** dataset_info.ipynb: the table of dataset properties *)
(* ===================================================================== *)

Section DatasetInfo.

(** What the notebook reads from a [Dataset] object: freq,
    prediction_length, target_dim, windows, _min_series_length and
    sum_series_length. *)
Context {A : Type}.

(** [dataset_properties = json.load(open("notebooks/dataset_properties.json"))] *)
Variable dataset_properties : gmap string props.

(** The attributes of [Dataset(name, term)]. *)
Variable dataset_attributes : string -> string -> A.

(** A row of the new table. *)
Record info_row := {
  i_name : string;
  i_term : string;
  i_attributes : A;
  i_domain : string;
  i_num_variates : Z
}.

(** The body of the loop: the row built for a name and a term. *)
Definition dataset_info_row (name term : string) : outcome info_row :=
  let dataset := dataset_attributes name term in
  let key := get_key name in
  p_domain ← getitem dataset_properties key;
  p_variates ← getitem dataset_properties key;
  mret {| i_name := name; i_term := term; i_attributes := dataset;
          i_domain := domain p_domain;
          i_num_variates := num_variates p_variates |}.

(** [for i, row in df.iterrows(): ...; rows.append(row)] from the rows
    gathered so far. *)
Fixpoint dataset_info_loop (df : list (string * string)) (rows : list info_row)
    : outcome (list info_row) :=
  match df with
  | [] => mret rows
  | (name, term) :: df' =>
      row ← dataset_info_row name term;
      dataset_info_loop df' (rows ++ [row])%list
  end.

(** The rows of [new_df], which [to_csv] writes over
    train_test_datasets.csv once the loop has ended. *)
Definition dataset_info_rows (df : list (string * string))
    : outcome (list info_row) :=
  dataset_info_loop df [].

End DatasetInfo.

(* ===================================================================== *)
(** ** archive/pretrain_domain.ipynb: filling the domain column *)
(* ===================================================================== *)

Module PretrainDomain.

Section Rows.

(** The other columns of dataset_info.csv. *)
Context {R : Type}.

(** A row of [df_output]. *)
Record out_row := {
  o_name : string;
  o_domain : string;
  o_rest : R
}.

Definition with_domain (d : string) (r : out_row) : out_row :=
  {| o_name := o_name r; o_domain := d; o_rest := o_rest r |}.

(** [df.iterrows()]: the rows with their index, as they are when the loop
    starts. *)
Definition iterrows {B} (df : list B) : list (nat * B) :=
  zip (seq 0 (length df)) df.

(** [df_output.at[j, "domain"] = d] *)
Definition at_set_domain (j : nat) (d : string) (df_output : list out_row)
    : list out_row :=
  alter (with_domain d) j df_output.


(** The cell that copies the domain of an input row to the output rows of
    the same name; an input row is its name and its domain. *)
Definition copy_matching (df_input : list (string * string))
    (df_output : list out_row) : list out_row :=
  foldl (λ df_output input_row,
           foldl (λ df_output' '(j, output_row),
                    if bool_decide (input_row.1 = o_name output_row)
                    then at_set_domain j input_row.2 df_output'
                    else df_output')
                 df_output (iterrows df_output))
        df_output df_input.

(** The cell that copies the domain of an input row to the output rows
    whose name starts with the part of the input name before its first
    underscore. *)
Definition copy_by_prefix (df_input : list (string * string))
    (df_output : list out_row) : list out_row :=
  foldl (λ df_output input_row,
           let cleaned_name := item0 (split "_"%char input_row.1) in
           let indices :=
             foldl (λ indices '(j, output_row),
                      if startswith (o_name output_row) cleaned_name
                      then (indices ++ [j])%list else indices)
                   [] (iterrows df_output) in
           foldl (λ df_output' index,
                    at_set_domain index input_row.2 df_output')
                 df_output indices)
        df_output df_input.



(** The domain a pass leaves in a row: that of the last input row that
    [selects] the name of the row, or the one the row had. *)
Definition last_selected (selects : string * string -> string -> bool)
    (df_input : list (string * string)) (r : out_row) : out_row :=
  match last (List.filter (λ input_row, selects input_row (o_name r)) df_input) with
  | Some input_row => with_domain input_row.2 r
  | None => r
  end.

Definition same_name (input_row : string * string) (name : string) : bool :=
  bool_decide (input_row.1 = name).

Definition name_prefix (input_row : string * string) (name : string) : bool :=
  startswith name (item0 (split "_"%char input_row.1)).

End Rows.

End PretrainDomain.

(* ===================================================================== *)
(** ** combined_dataset.ipynb: the names of the available datasets *)
(* ===================================================================== *)

Module DatasetListing.

(** An entry of a directory: its name and whether it is a directory. *)
Record path := {
  name : string;
  is_dir : bool
}.

(** An entry of [gift_eval_path] with, when it is a directory, its own
    entries in the order [iterdir] gives them. *)
Record dataset_path := {
  self : path;
  iterdir : list path
}.

(** One round of the loop over [gift_eval_path.iterdir()]. *)
Definition list_dataset (dataset_names : list string) (dataset_dir : dataset_path)
    : list string :=
  if startswith (name (self dataset_dir)) "." || negb (is_dir (self dataset_dir))
  then dataset_names
  else
    let freq_dirs := List.filter is_dir (iterdir dataset_dir) in
    let dataset_names :=
      match freq_dirs with
      | [] => app dataset_names [name (self dataset_dir)]
      | _ => dataset_names
      end in
    foldl (λ dataset_names freq_dir,
             app dataset_names
               [name (self dataset_dir) ++ "/" ++ name freq_dir])
          dataset_names freq_dirs.

Definition list_datasets (gift_eval_path : list dataset_path) : list string :=
  foldl list_dataset [] gift_eval_path.

(** The names a dataset directory stands for: its own when it has no
    subdirectory, and otherwise one per subdirectory. *)
Definition names_of (dataset_dir : dataset_path) : list string :=
  match List.filter is_dir (iterdir dataset_dir) with
  | [] => [name (self dataset_dir)]
  | freq_dirs =>
      map (λ freq_dir, name (self dataset_dir) ++ "/" ++ name freq_dir) freq_dirs
  end.

(** Is the entry a dataset directory: a directory that is not hidden? *)
Definition listed (dataset_dir : dataset_path) : bool :=
  negb (startswith (name (self dataset_dir)) ".") && is_dir (self dataset_dir).

(** No name of the entry has a '/', as in a file system. *)
Definition slash_free (dataset_dir : dataset_path) : bool :=
  negb (str_in slash (name (self dataset_dir)))
  && forallb (λ p, negb (str_in slash (name p))) (iterdir dataset_dir).

End DatasetListing.

(* ===================================================================== *)
(** ** The other job scripts *)
(* ===================================================================== *)

Module Jobs.

(** A script in progress: its shell state, the external commands it has
    run, and the paths it has removed. *)
Record job := {
  sh : JobScript.shell;
  execs : list (list string);
  removed : list string
}.

Definition init_job : job :=
  {| sh := JobScript.init_shell; execs := []; removed := [] |}.

Definition on_shell (f : JobScript.shell -> JobScript.shell) (jb : job) : job :=
  {| sh := f (sh jb); execs := execs jb; removed := removed jb |}.

Definition exec (cmd : list string) (jb : job) : job :=
  {| sh := sh jb; execs := (execs jb ++ [cmd])%list; removed := removed jb |}.


Section Scripts.

(** The wall clock, as in [JobScript]. *)
Variable clock : nat -> string.

(** The exit status of an external command. *)
Variable status : list string -> Z.

(** [find "$dirpath" -mindepth 1 -maxdepth 1 -type d | wc -l] *)
Variable count_dirs : string -> Z.

(** [nproc] *)
Variable nproc : string.

(** [if cmd; then log; mkdir -p done_dir; touch done_file;
     echo "[time] done_msg" > done_file; else log_error; (exit 1) fi],
    for the scripts that build the marker path themselves; [exit_on_error]
    tells whether the else branch has [exit 1]. *)
Definition run_then_mark (cmd : list string) (done_dir done_file : string)
    (ok_msg ok_err_msg err_msg done_msg : string) (exit_on_error : bool)
    (jb : job) : job * Z :=
  let jb := exec cmd jb in
  if (status cmd =? 0)%Z then
    let jb := on_shell (JobScript.log_info clock ok_msg) jb in
    let jb := on_shell (JobScript.log_error clock ok_err_msg) jb in
    let jb := on_shell (JobScript.do_op (JobScript.Mkdir done_dir)) jb in
    let jb := on_shell (JobScript.do_op (JobScript.Touch done_file)) jb in
    let '(end_time, s) := JobScript.get_timestamp clock (sh jb) in
    let jb := on_shell (λ _, s) jb in
    let jb :=
      on_shell (JobScript.do_op
                  (JobScript.WriteFile done_file
                     ("[" ++ end_time ++ "] " ++ done_msg))) jb in
    (jb, 0%Z)
  else
    let jb := on_shell (JobScript.log_error clock err_msg) jb in
    (jb, if exit_on_error then 1%Z else 0%Z).

(** scripts/run_download_datasets.sh *)
Definition run_download_datasets (env : JobScript.slurm_env) : job * Z :=
  let jb := on_shell (JobScript.do_op (JobScript.Mkdir "logs")) init_job in
  let task := JobScript.SLURM_ARRAY_TASK_ID env in
  let '(split, name) :=
    if (task =? 0)%Z then ("pretrain", "GiftEval" ++ "Pretrain")
    else ("train_test", "GiftEval") in
  let dirpath := "./datasets/" ++ split in
  let jb := on_shell (JobScript.do_op (JobScript.Mkdir dirpath)) jb in
  let num_datasets := count_dirs dirpath in
  let already_msg :=
    split ++ " datasets have already been downloaded! Exiting..." in
  if (task =? 0)%Z && (num_datasets =? 50)%Z then
    (on_shell (JobScript.log_info clock already_msg) jb, 0%Z)
  else if (task =? 1)%Z && (num_datasets =? 28)%Z then
    (on_shell (JobScript.log_info clock already_msg) jb, 0%Z)
  else
    let jb := on_shell (JobScript.log_job_info env) jb in
    let jb := on_shell (JobScript.log_info clock ("Downloading " ++ split)) jb in
    let done_dir :=
      "logs/" ++ JobScript.SLURM_JOB_NAME env ++ "/done/"
      ++ JobScript.SLURM_ARRAY_JOB_ID env in
    let done_file :=
      done_dir ++ "/" ++ JobScript.show_Z task ++ ".done" in
    run_then_mark
      ["huggingface-cli"; "download"; "Salesforce/" ++ name;
       "--repo-type=dataset"; "--local-dir"; dirpath]
      done_dir done_file
      ("Successfully downloaded " ++ split ++ " split to " ++ dirpath ++ "!")
      ("No errors for downloading " ++ split ++ " split!")
      ("ERROR: Failed to download " ++ split ++ " split!")
      ("Done downloading " ++ split ++ " split")
      false jb.

(** The marker of run_download_datasets.sh. *)
Definition download_done_file (env : JobScript.slurm_env) : string :=
  let done_dir :=
    "logs/" ++ JobScript.SLURM_JOB_NAME env ++ "/done/"
    ++ JobScript.SLURM_ARRAY_JOB_ID env in
  done_dir ++ "/" ++ JobScript.show_Z (JobScript.SLURM_ARRAY_TASK_ID env)
  ++ ".done".

(** Has the split of the task been downloaded already, by the count the
    script makes? *)
Definition already_downloaded (env : JobScript.slurm_env) : bool :=
  let task := JobScript.SLURM_ARRAY_TASK_ID env in
  ((task =? 0)%Z && (count_dirs "./datasets/pretrain" =? 50)%Z)
  || ((task =? 1)%Z && (count_dirs "./datasets/train_test" =? 28)%Z).

(** The command line of the download of a task. *)
Definition download_command (env : JobScript.slurm_env) : list string :=
  if (JobScript.SLURM_ARRAY_TASK_ID env =? 0)%Z then
    ["huggingface-cli"; "download"; "Salesforce/GiftEvalPretrain";
     "--repo-type=dataset"; "--local-dir"; "./datasets/pretrain"]
  else
    ["huggingface-cli"; "download"; "Salesforce/GiftEval";
     "--repo-type=dataset"; "--local-dir"; "./datasets/train_test"].


(** [${model_name//\//_}] *)
Definition sanitize (model_name : string) : string :=
  replace_char slash "_"%char model_name.

Definition model_names : list string := ["codellama/CodeLlama-13b-hf"].
Definition subsets : list string := ["dailylifeapis"; "huggingface"; "multimedia"].

(** The marker of the eval_taskbench job for a model and a subset. *)
Definition taskbench_done_file (env : JobScript.slurm_env)
    (model_name subset : string) : string :=
  let done_dir :=
    "done/" ++ JobScript.SLURM_JOB_NAME env ++ "/"
    ++ JobScript.SLURM_ARRAY_JOB_ID env in
  done_dir ++ "/" ++ sanitize model_name ++ "_" ++ subset ++ ".done".


(** The model and the subset of an array task of the eval_taskbench job. *)
Definition taskbench_pair (env : JobScript.slurm_env) : string * string :=
  let task := JobScript.SLURM_ARRAY_TASK_ID env in
  let num_subsets := Z.of_nat (length subsets) in
  (Slurm.sh_elem model_names (Slurm.sh_div task num_subsets),
   Slurm.sh_elem subsets (Slurm.sh_mod task num_subsets)).

(** The eval_taskbench job script: four processes, one per GPU, then the
    marker.  The processes run side by side; the model records the commands
    in the order of the loop that starts them, and nothing of what they
    write. *)
Definition run_eval_taskbench (env : JobScript.slurm_env) : job * Z :=
  let task := JobScript.SLURM_ARRAY_TASK_ID env in
  let task_id := "task_" ++ JobScript.show_Z task in
  let out_dir :=
    "logs/" ++ JobScript.SLURM_JOB_NAME env ++ "/"
    ++ JobScript.SLURM_ARRAY_JOB_ID env ++ "/out/" ++ task_id in
  let err_dir :=
    "logs/" ++ JobScript.SLURM_JOB_NAME env ++ "/"
    ++ JobScript.SLURM_ARRAY_JOB_ID env ++ "/err/" ++ task_id in
  let jb := on_shell (JobScript.do_op (JobScript.Mkdir out_dir)) init_job in
  let jb := on_shell (JobScript.do_op (JobScript.Mkdir err_dir)) jb in
  let num_subsets := Z.of_nat (length subsets) in
  let model_name_index := Slurm.sh_div task num_subsets in
  let subset_index := Slurm.sh_mod task num_subsets in
  let model_name := Slurm.sh_elem model_names model_name_index in
  let subset := Slurm.sh_elem subsets subset_index in
  let jb := on_shell (JobScript.log_info clock ("Model: " ++ model_name)) jb in
  let jb := on_shell (JobScript.log_info clock ("Subset: " ++ subset)) jb in
  let jb := on_shell (JobScript.log_job_info env) jb in
  let jb :=
    foldl (λ jb gpu_id,
             exec ["python"; "eval_taskbench.py"; "--model_name"; model_name;
                   "--subset"; subset; "--shard_id"; gpu_id;
                   "--num_shards"; "4"; "--batch_size"; "16"] jb)
          jb ["0"; "1"; "2"; "3"] in
  let jb :=
    on_shell (JobScript.log_error clock
                ("No errors for eval_taskbench.py " ++ model_name
                 ++ " (" ++ subset ++ ")")) jb in
  let done_dir :=
    "done/" ++ JobScript.SLURM_JOB_NAME env ++ "/"
    ++ JobScript.SLURM_ARRAY_JOB_ID env in
  let jb := on_shell (JobScript.do_op (JobScript.Mkdir done_dir)) jb in
  let done_file :=
    done_dir ++ "/" ++ sanitize model_name ++ "_" ++ subset ++ ".done" in
  let jb := on_shell (JobScript.do_op (JobScript.Touch done_file)) jb in
  let '(end_time, s) := JobScript.get_timestamp clock (sh jb) in
  let jb := on_shell (λ _, s) jb in
  let jb :=
    on_shell (JobScript.do_op
                (JobScript.WriteFile done_file
                   ("[" ++ end_time ++ "] Finished eval_taskbench.py for "
                    ++ model_name ++ " (" ++ subset ++ ")!"))) jb in
  (jb, 0%Z).

End Scripts.

End Jobs.

(* ===================================================================== *)
(** ** Expressions evaluated in order *)
(* ===================================================================== *)

(** The exception of the first of a list of evaluations that raises. *)
Fixpoint first_raise {A} (os : list (outcome A)) : option exn :=
  match os with
  | [] => None
  | Ok _ :: os' => first_raise os'
  | Raise e :: _ => Some e
  end.

(* ===================================================================== *)
(** ** Result columns *)
(* ===================================================================== *)

(** The columns of a results file, as the specification lists them:
    dataset config, model name, the eleven metrics, domain and number of
    variates. *)
Inductive column :=
| ColDataset
| ColModel
| ColMetric (m : string)
| ColDomain
| ColNumVariates.

Definition columns : list column :=
  ([ColDataset; ColModel] ++ map ColMetric metric_columns
   ++ [ColDomain; ColNumVariates])%list.

Definition column_title (c : column) : string :=
  match c with
  | ColDataset => "dataset"
  | ColModel => "model"
  | ColMetric m => "eval_metrics/" ++ m
  | ColDomain => "domain"
  | ColNumVariates => "num_variates"
  end.

(* ===================================================================== *)
(** ** Sample data *)
(* ===================================================================== *)

(** Two entries in the shape of dataset_properties.json, for the two
    datasets the notebooks are set to run on. *)
Definition sample_properties : gmap string props :=
  <["m4_weekly" := {| frequency := "W"; domain := "Econ/Fin";
                      num_variates := 1 |}]>
  (<["m4_hourly" := {| frequency := "H"; domain := "Econ/Fin";
                       num_variates := 1 |}]>
  (<["bizitobs_l2c" := {| frequency := "5T"; domain := "Web/CloudOps";
                          num_variates := 7 |}]> ∅)).

(** A result table with one value in each of the eleven metric columns. *)
Definition sample_results : gmap string (list Z) :=
  list_to_map (zip metric_columns (map (λ n, [n]) [1; 2; 3; 4; 5; 6; 7; 8; 9; 10; 11]%Z)).

Definition sample_evaluate_model (d : dataset) : gmap string (list Z) :=
  sample_results.

Definition sample_target_dim (name term : string) : Z :=
  if bool_decide (name = "bizitobs_l2c/H") then 7 else 1.

(** feedforward.ipynb: [all_dataset_names = [short_dataset, med_long_dataset]]
    and the names of [med_long_dataset_names_string]. *)
Definition feedforward_all_dataset_names : list string :=
  ["m4_hourly"; "bizitobs_l2c/H"].

Definition feedforward_med_long_datasets_names : list string :=
  [ "electricity/15T"; "electricity/H"; "solar/10T"; "solar/H";
    "kdd_cup_2018_with_missing/H"; "LOOP_SEATTLE/5T"; "LOOP_SEATTLE/H";
    "SZ_TAXI/15T"; "M_DENSE/H"; "ett1/15T"; "ett1/H"; "ett2/15T"; "ett2/H";
    "jena_weather/10T"; "jena_weather/H"; "bitbrains_fast_storage/5T";
    "bitbrains_rnd/5T"; "bizitobs_application"; "bizitobs_service";
    "bizitobs_l2c/5T"; "bizitobs_l2c/H" ].

(** chronos.ipynb and moirai.ipynb: the two names of [short_datasets] and
    [med_long_datasets], in one of the orders [list(set(...))] can give. *)
Definition chronos_all_datasets : list string := ["m4_weekly"; "bizitobs_l2c/H"].
Definition chronos_med_long_datasets : list string := ["bizitobs_l2c/H"].

(** A directory listing and the environment of array task 4 of job 77,
    for the job scripts. *)
Definition sample_names : list string := ["azure_vm_traces"; "borg_cluster"; "wiki"].

Definition sample_env : JobScript.slurm_env :=
  {| JobScript.SLURM_JOB_NAME := "load_datasets";
     JobScript.SLURM_JOB_ID := "81";
     JobScript.SLURM_ARRAY_JOB_ID := "77";
     JobScript.SLURM_ARRAY_TASK_ID := 4 |}.

(* ===================================================================== *)
(** ** The notebooks *)
(* ===================================================================== *)

Section Harness.

(** The type of a metric value: whatever [evaluate_model] puts in its
    result table.  The notebooks only move such values around. *)
Context {V : Type}.

(** The type of a time-series entry of a training or validation set. *)
Context {E : Type}.

(** [dataset_properties_map = json.load(open("dataset_properties.json"))] *)
Variable dataset_properties_map : gmap string props.

(** [Dataset(name=n, term=t, to_univariate=False).target_dim] *)
Variable target_dim : string -> string -> Z.

(** [dataset.training_dataset] and [dataset.validation_dataset] *)
Variable training_dataset : dataset -> list E.
Variable validation_dataset : dataset -> list E.

(** The result table of the library's [evaluate_model] on the test data
    of a dataset: column name to column. *)
Variable evaluate_model : dataset -> gmap string (list V).

(** The dataset lists of feedforward.ipynb ... *)
Variable all_dataset_names : list string.
Variable med_long_datasets_names : list string.

(** ... and of chronos.ipynb and moirai.ipynb
    ([med_long_datasets] stands for [med_long_datasets.split()]). *)
Variable all_datasets : list string.
Variable med_long_datasets : list string.

(** A field handed to [csv.writer.writerow]. *)
Inductive cell :=
| CStr (s : string)
| CInt (n : Z)
| CVal (v : V).

(** The files written so far, as lists of rows, and the library calls
    made so far. *)
Record world := {
  files : gmap string (list (list cell));
  trace : list event
}.

(** State and exceptions: a computation ends with a value or a raised
    exception, and in both cases with the world it has reached. *)
Definition M (A : Type) : Type := world -> outcome A * world.

Global Instance M_ret : MRet M := λ A a w, (Ok a, w).
Global Instance M_bind : MBind M :=
  λ A B f m w, match m w with
               | (Ok a, w') => f a w'
               | (Raise e, w') => (Raise e, w')
               end.

Definition lift {A} (o : outcome A) : M A := λ w, (o, w).

Definition emit (ev : event) : M unit :=
  λ w, (Ok tt, {| files := files w; trace := trace w ++ [ev] |}).

(** The rows of a file; a file that does not exist has none. *)
Definition rows_of (path : string) (w : world) : list (list cell) :=
  default [] (files w !! path).

(** [open(path, "w")]: the file is created or emptied. *)
Definition open_write (path : string) : M unit :=
  λ w, (Ok tt, {| files := <[path := []]> (files w); trace := trace w |}).

(** [open(path, "a")]: the file is created when it does not exist and is
    left as it is otherwise. *)
Definition open_append (path : string) : M unit :=
  λ w, (Ok tt, {| files := <[path := rows_of path w]> (files w);
                  trace := trace w |}).

(** [csv.writer(csvfile).writerow(row)] on an open file: the row goes to
    the end of the file. *)
Definition writerow (path : string) (row : list cell) : M unit :=
  λ w, (Ok tt, {| files := <[path := (rows_of path w ++ [row])%list]> (files w);
                  trace := trace w |}).

(** [for x in xs: body(x)] *)
Fixpoint for_each {A} (xs : list A) (body : A -> M unit) : M unit :=
  match xs with
  | [] => mret tt
  | x :: xs' => body x ;; for_each xs' body
  end.

(** A [for] loop that extends local variables: [s] is their value
    before the round and the result of [body] their value after it. *)
Fixpoint for_fold {A S} (xs : list A) (body : S -> A -> M S) (s : S) : M S :=
  match xs with
  | [] => mret s
  | x :: xs' => s' ← body s x; for_fold xs' body s'
  end.

(** [Dataset(name=, term=, to_univariate=)] *)
Definition Dataset (name term : string) (to_univariate : bool) : M dataset :=
  emit (EDataset name term to_univariate) ;;
  mret {| d_name := name; d_term := term;
          d_to_univariate := to_univariate |}.

(** [evaluate_model(predictor, test_data=dataset.test_data, ...)] *)
Definition call_evaluate_model (d : dataset) : M (gmap string (list V)) :=
  emit (EEvaluate (d_name d) (d_term d) (d_to_univariate d)) ;;
  mret (evaluate_model d).

(** The header cell of every notebook:
    [with open(csv_file_path, "w", newline="") as csvfile:
       csv.writer(csvfile).writerow([...])] *)
Definition write_header (csv_file_path : string) : M unit :=
  open_write csv_file_path ;;
  writerow csv_file_path (map CStr header).

(** [results[m][0]] *)
Definition metric0 (results : gmap string (list V)) (m : string) : outcome V :=
  col ← getitem results m; index col 0.

(** The list handed to [writerow] for a result; the three notebooks
    spell out the same fifteen expressions and differ in the model
    name. *)
Definition result_row (model_name dataset_config : string)
    (results : gmap string (list V)) (key : string) : outcome (list cell) :=
  mse_mean ← metric0 results "MSE[mean]";
  mse_05 ← metric0 results "MSE[0.5]";
  mae_05 ← metric0 results "MAE[0.5]";
  mase_05 ← metric0 results "MASE[0.5]";
  mape_05 ← metric0 results "MAPE[0.5]";
  smape_05 ← metric0 results "sMAPE[0.5]";
  msis ← metric0 results "MSIS";
  rmse_mean ← metric0 results "RMSE[mean]";
  nrmse_mean ← metric0 results "NRMSE[mean]";
  nd_05 ← metric0 results "ND[0.5]";
  mwsql ← metric0 results "mean_weighted_sum_quantile_loss";
  p_domain ← getitem dataset_properties_map key;
  p_variates ← getitem dataset_properties_map key;
  mret [ CStr dataset_config;
         CStr model_name;
         CVal mse_mean;
         CVal mse_05;
         CVal mae_05;
         CVal mase_05;
         CVal mape_05;
         CVal smape_05;
         CVal msis;
         CVal rmse_mean;
         CVal nrmse_mean;
         CVal nd_05;
         CVal mwsql;
         CStr (domain p_domain);
         CInt (num_variates p_variates) ].

(** *** feedforward.ipynb *)

Definition feedforward_csv : string := "results/feedforward.csv".

Definition check_if_multivariate (dataset_name term : string) : M bool :=
  d ← Dataset dataset_name term false;
  let target_dimension := target_dim (d_name d) (d_term d) in
  mret (bool_decide (1 < target_dimension)%Z).

(** One round of the loops of [combine_datasets], on the two lists it
    extends. *)
Definition combine_pair (dataset_name term : string)
    (combined : list E * list E) : M (list E * list E) :=
  let term_is_not_short := negb (bool_decide (term = "short")) in
  let dataset_is_short :=
    negb (bool_decide (dataset_name ∈ med_long_datasets_names)) in
  if term_is_not_short && dataset_is_short then mret combined
  else
    is_multivariate ← check_if_multivariate dataset_name term;
    let to_univariate := if (is_multivariate : bool) then true else false in
    d ← Dataset dataset_name term to_univariate;
    mret ((combined.1 ++ training_dataset d)%list,
          (combined.2 ++ validation_dataset d)%list).

Definition combine_datasets : M (list E * list E) :=
  for_fold all_dataset_names (λ combined dataset_name,
    for_fold terms (λ combined term,
      combine_pair dataset_name term combined) combined) ([], []).

Definition get_dataset_freq (dataset_name : string) : outcome string :=
  let key := get_dataset_key dataset_name in
  if str_in slash dataset_name then index (split slash dataset_name) 1
  else p ← getitem dataset_properties_map key; mret (frequency p).

Definition get_dataset_config (dataset_name term : string) : outcome string :=
  let key := get_dataset_key dataset_name in
  freq ← get_dataset_freq dataset_name;
  mret (key ++ "/" ++ freq ++ "/" ++ term).

Definition write_to_csv (results : gmap string (list V))
    (csv_file_path term dataset_name : string) : M unit :=
  dataset_config ← lift (get_dataset_config dataset_name term);
  open_append csv_file_path ;;
  let key := get_dataset_key dataset_name in
  row ← lift (result_row "feedforward" dataset_config results key);
  writerow csv_file_path row.

(** [perform_inference(predictor, term, dataset_name)]; the trained
    predictor is part of [evaluate_model]. *)
Definition perform_inference (term dataset_name : string)
    : M (gmap string (list V)) :=
  is_multivariate ← check_if_multivariate dataset_name term;
  let to_univariate := if (is_multivariate : bool) then true else false in
  d ← Dataset dataset_name term to_univariate;
  call_evaluate_model d.

(** One round of the inference loop. *)
Definition feedforward_pair (term dataset_name : string) : M unit :=
  if negb (bool_decide (term = "short")) then mret tt
  else
    results ← perform_inference term dataset_name;
    write_to_csv results feedforward_csv term dataset_name.

(** [for term in terms: for dataset_name in all_dataset_names: ...] *)
Definition feedforward_inference_loop : M unit :=
  for_each terms (λ term,
    for_each all_dataset_names (λ dataset_name,
      feedforward_pair term dataset_name)).

(** The header cell followed by the inference cell. *)
Definition feedforward_run : M unit :=
  write_header feedforward_csv ;; feedforward_inference_loop.

(** *** chronos.ipynb and moirai.ipynb *)

Definition chronos_csv : string := "../results/chronos_bolt_base/all_results.csv".
Definition moirai_csv : string := "../results/moirai_small/all_results.csv".

(** The [if "/" in ds_name: ... else: ...] block of both notebooks: the
    key and the frequency of a dataset name. *)
Definition ds_key_freq (ds_name : string) : outcome (string * string) :=
  if str_in slash ds_name then
    let ds_key := item0 (split slash ds_name) in
    ds_freq ← index (split slash ds_name) 1;
    let ds_key := lower ds_key in
    let ds_key := dict_get pretty_names ds_key ds_key in
    mret (ds_key, ds_freq)
  else
    let ds_key := lower ds_name in
    let ds_key := dict_get pretty_names ds_key ds_key in
    p ← getitem dataset_properties_map ds_key;
    mret (ds_key, frequency p).

(** [(term == "medium" or term == "long")
     and ds_name not in med_long_datasets.split()] *)
Definition skip_pair (ds_name term : string) : bool :=
  (bool_decide (term = "medium") || bool_decide (term = "long"))
  && negb (bool_decide (ds_name ∈ med_long_datasets)).

(** [with open(csv_file_path, "a", newline="") as csvfile:
       csv.writer(csvfile).writerow([...])] *)
Definition append_result (csv_file_path model_name ds_config : string)
    (res : gmap string (list V)) (ds_key : string) : M unit :=
  open_append csv_file_path ;;
  row ← lift (result_row model_name ds_config res ds_key);
  writerow csv_file_path row.

(** One round of the loop of chronos.ipynb. *)
Definition chronos_pair (ds_name term : string) : M unit :=
  if skip_pair ds_name term then mret tt
  else
    '(ds_key, ds_freq) ← lift (ds_key_freq ds_name);
    let ds_config := ds_key ++ "/" ++ ds_freq ++ "/" ++ term in
    probe ← Dataset ds_name term false;
    let to_univariate :=
      if bool_decide (target_dim (d_name probe) (d_term probe) = 1%Z)
      then false else true in
    d ← Dataset ds_name term to_univariate;
    res ← call_evaluate_model d;
    append_result chronos_csv "chronos_bolt_base" ds_config res ds_key.

Definition chronos_evaluation_loop : M unit :=
  for_each all_datasets (λ ds_name,
    for_each terms (λ term, chronos_pair ds_name term)).

Definition chronos_run : M unit :=
  write_header chronos_csv ;; chronos_evaluation_loop.

(** One round of the loop of moirai.ipynb. *)
Definition moirai_pair (ds_name term : string) : M unit :=
  if skip_pair ds_name term then mret tt
  else
    '(ds_key, ds_freq) ← lift (ds_key_freq ds_name);
    let ds_config := ds_key ++ "/" ++ ds_freq ++ "/" ++ term in
    let to_univariate := false in
    d ← Dataset ds_name term to_univariate;
    res ← call_evaluate_model d;
    append_result moirai_csv "moirai_small" ds_config res ds_key.

Definition moirai_evaluation_loop : M unit :=
  for_each all_datasets (λ ds_name,
    for_each terms (λ term, moirai_pair ds_name term)).

Definition moirai_run : M unit :=
  write_header moirai_csv ;; moirai_evaluation_loop.

(** *** The three notebooks side by side *)

Inductive notebook := Feedforward | Chronos | Moirai.

(** The results file of a notebook. *)
Definition notebook_csv (nb : notebook) : string :=
  match nb with
  | Feedforward => feedforward_csv
  | Chronos => chronos_csv
  | Moirai => moirai_csv
  end.

(** One round of the evaluation loop of a notebook. *)
Definition notebook_pair (nb : notebook) (name term : string) : M unit :=
  match nb with
  | Feedforward => feedforward_pair term name
  | Chronos => chronos_pair name term
  | Moirai => moirai_pair name term
  end.

(** The evaluation loop of a notebook. *)
Definition notebook_loop (nb : notebook) : M unit :=
  match nb with
  | Feedforward => feedforward_inference_loop
  | Chronos => chronos_evaluation_loop
  | Moirai => moirai_evaluation_loop
  end.

(** The notebook from its first results cell to the end of its loop. *)
Definition notebook_run (nb : notebook) : M unit :=
  match nb with
  | Feedforward => feedforward_run
  | Chronos => chronos_run
  | Moirai => moirai_run
  end.

(** The (dataset, term) pairs in the order in which the loop of a
    notebook visits them: feedforward.ipynb has the terms outside and the
    datasets inside, the other two the datasets outside. *)
Definition loop_pairs (nb : notebook) : list (string * string) :=
  match nb with
  | Feedforward =>
      flat_map (λ term, map (λ name, (name, term)) all_dataset_names) terms
  | Chronos | Moirai =>
      flat_map (λ name, map (λ term, (name, term)) terms) all_datasets
  end.

(** The test with which a notebook leaves a round by [continue]. *)
Definition notebook_skips (nb : notebook) (name term : string) : bool :=
  match nb with
  | Feedforward => negb (bool_decide (term = "short"))
  | Chronos | Moirai => skip_pair name term
  end.

(** The [to_univariate] argument a notebook gives to the dataset it
    evaluates. *)
Definition notebook_to_univariate (nb : notebook) (name term : string) : bool :=
  match nb with
  | Feedforward => bool_decide (1 < target_dim name term)%Z
  | Chronos => negb (bool_decide (target_dim name term = 1%Z))
  | Moirai => false
  end.

(** The library calls of a round that is not skipped. *)
Definition pair_events (nb : notebook) (name term : string) : list event :=
  let tu := notebook_to_univariate nb name term in
  match nb with
  | Feedforward | Chronos =>
      [EDataset name term false; EDataset name term tu; EEvaluate name term tu]
  | Moirai => [EDataset name term tu; EEvaluate name term tu]
  end.

(** The dataset a round evaluates. *)
Definition pair_dataset (nb : notebook) (name term : string) : dataset :=
  {| d_name := name; d_term := term;
     d_to_univariate := notebook_to_univariate nb name term |}.

(** The row a round writes: the dataset config and key of the notebook
    and the result table of the evaluation. *)
Definition pair_row (nb : notebook) (name term : string) : outcome (list cell) :=
  let res := evaluate_model (pair_dataset nb name term) in
  match nb with
  | Feedforward =>
      dataset_config ← get_dataset_config name term;
      result_row "feedforward" dataset_config res (get_dataset_key name)
  | Chronos =>
      '(ds_key, ds_freq) ← ds_key_freq name;
      result_row "chronos_bolt_base"
        (ds_key ++ "/" ++ ds_freq ++ "/" ++ term) res ds_key
  | Moirai =>
      '(ds_key, ds_freq) ← ds_key_freq name;
      result_row "moirai_small"
        (ds_key ++ "/" ++ ds_freq ++ "/" ++ term) res ds_key
  end.

(** *** The specification's reading of the code, for comparison *)

(** The pairs the specification says are evaluated: "term is 'short' or
    the dataset name is in the medium-to-long dataset list". *)
Definition claimed_selected (med_long : list string) (p : string * string)
    : Prop :=
  p.2 = "short" \/ p.1 ∈ med_long.

Global Instance claimed_selected_dec med_long p :
  Decision (claimed_selected med_long p).
Proof. unfold claimed_selected. apply _. Defined.

(** The pairs feedforward.ipynb evaluates: those of the short term. *)
Definition short_term (p : string * string) : Prop := p.2 = "short".

Global Instance short_term_dec p : Decision (short_term p).
Proof. unfold short_term. apply _. Defined.

(** The pairs a notebook evaluates. *)
Definition selected (nb : notebook) (p : string * string) : Prop :=
  match nb with
  | Feedforward => short_term p
  | Chronos | Moirai => claimed_selected med_long_datasets p
  end.

Global Instance selected_dec nb p : Decision (selected nb p).
Proof. destruct nb; simpl; apply _. Defined.

Definition selected_pairs (nb : notebook) : list (string * string) :=
  filter (selected nb) (loop_pairs nb).

(** What a round adds to the list of evaluated pairs, read off the code:
    nothing when it is skipped, its pair otherwise. *)
Definition round_pairs (nb : notebook) (p : string * string)
    : list (string * string) :=
  if notebook_skips nb p.1 p.2 then [] else [p].

(** The model name a notebook writes in its rows. *)
Definition notebook_model (nb : notebook) : string :=
  match nb with
  | Feedforward => "feedforward"
  | Chronos => "chronos_bolt_base"
  | Moirai => "moirai_small"
  end.

(** The [to_univariate] flags of the library calls of a notebook: an
    evaluated dataset carries the flag of its notebook, and no dataset of
    target dimension 1 is constructed with [to_univariate=True]. *)
Definition event_flag_ok (nb : notebook) (ev : event) : Prop :=
  match ev with
  | EDataset name term tu => tu = true -> target_dim name term <> 1%Z
  | EEvaluate name term tu => tu = notebook_to_univariate nb name term
  end.


(** The value a column takes in a result row. *)
Definition field_of (model_name dataset_config : string)
    (results : gmap string (list V)) (p : props) (c : column) : outcome cell :=
  match c with
  | ColDataset => Ok (CStr dataset_config)
  | ColModel => Ok (CStr model_name)
  | ColMetric m => v ← metric0 results m; Ok (CVal v)
  | ColDomain => Ok (CStr (domain p))
  | ColNumVariates => Ok (CInt (num_variates p))
  end.

(** The frequency as the specification words it: "the substring after
    the first '/' when the name contains '/', and otherwise
    dataset_properties_map[key]['frequency']". *)
Definition claimed_dataset_freq (dataset_name : string) : outcome string :=
  if str_in slash dataset_name then Ok (after_first slash dataset_name)
  else p ← getitem dataset_properties_map (get_dataset_key dataset_name);
       Ok (frequency p).

Definition claimed_dataset_config (dataset_name term : string)
    : outcome string :=
  freq ← claimed_dataset_freq dataset_name;
  Ok (get_dataset_key dataset_name ++ "/" ++ freq ++ "/" ++ term).

(** The world after the library calls of a round. *)
Definition after_events (evs : list event) (w : world) : world :=
  {| files := files w; trace := trace w ++ evs |}.

(** The world after a row has been added to a file. *)
Definition after_row (path : string) (row : list cell) (w : world) : world :=
  {| files := <[path := (rows_of path w ++ [row])%list]> (files w);
     trace := trace w |}.

(** The world before a notebook runs: no file, no call. *)
Definition empty_world : world := {| files := ∅; trace := [] |}.

(** How far a loop got over the pairs it selects, seen from the results
    file and from the evaluations: the rows of the pairs that are [done] have
    been added in order; the evaluations are those of the [done] pairs and,
    at most, of the pair after them; a loop that ends normally has left no
    pair. *)
Definition progress (nb : notebook) (pairs : list (string * string))
    (w : world) (r : outcome unit * world) : Prop :=
  exists done rest rows,
    pairs = (done ++ rest)%list /\
    rows_of (notebook_csv nb) r.2 = (rows_of (notebook_csv nb) w ++ rows)%list /\
    Forall2 (λ p row, pair_row nb p.1 p.2 = Ok row) done rows /\
    (evaluated (trace r.2) = (evaluated (trace w) ++ done)%list \/
     exists p rest', rest = p :: rest' /\
       evaluated (trace r.2) = (evaluated (trace w) ++ done ++ [p])%list) /\
    (r.1 = Ok tt ->
     rest = [] /\ evaluated (trace r.2) = (evaluated (trace w) ++ done)%list).

(** The key a notebook looks up in [dataset_properties_map]. *)
Definition notebook_key (nb : notebook) (name : string) : string :=
  match nb with
  | Feedforward => get_dataset_key name
  | Chronos | Moirai => get_key name
  end.

(** Does a notebook evaluate the model before it looks the key of a
    dataset up?  feedforward.ipynb builds the dataset config after the
    evaluation; the other two read the frequency of a name without '/' from
    the map before it. *)
Definition evaluates_before_lookup (nb : notebook) (name : string) : bool :=
  match nb with
  | Feedforward => true
  | Chronos | Moirai => str_in slash name
  end.

(** The datasets [combine_datasets] loads, in the order of its loops. *)
Definition combined_datasets : list dataset :=
  map (λ p, pair_dataset Feedforward p.1 p.2)
    (filter (claimed_selected med_long_datasets_names)
       (flat_map (λ name, map (λ term, (name, term)) terms) all_dataset_names)).

(** The two constructions [combine_datasets] makes of a dataset. *)
Definition load_events (d : dataset) : list event :=
  [EDataset (d_name d) (d_term d) false;
   EDataset (d_name d) (d_term d) (d_to_univariate d)].

(* ===================================================================== *)
(** *** Facts about strings *)
(* ===================================================================== *)

Lemma split_cons c s : exists seg segs, split c s = seg :: segs.
Proof.
  destruct s as [|a s]; simpl; [eauto|].
  destruct (Ascii.eqb a c); [eauto|].
  destruct (split c s); eauto.
Qed.

Lemma append_cons a s t : String a s ++ t = String a (s ++ t).
Proof. reflexivity. Qed.


Lemma str_in_app c s t : str_in c (s ++ t) = str_in c s || str_in c t.
Proof.
  induction s as [|a s IH]; [reflexivity|]. rewrite append_cons. simpl.
  destruct (Ascii.eqb a c); [reflexivity|exact IH].
Qed.

(** The first segment of [split] is the part of the string before the first
    separator, and the remaining segments come from the part after it. *)
Lemma split_first c s :
  str_in c s = true ->
  exists seg rest,
    split c s = seg :: split c rest /\
    s = seg ++ String c rest /\
    str_in c seg = false /\
    after_first c s = rest.
Proof.
  induction s as [|a s IH]; simpl; [discriminate|].
  destruct (Ascii.eqb a c) eqn:Eq.
  - intros _. apply Ascii.eqb_eq in Eq. subst a.
    exists EmptyString, s. auto.
  - intros H. destruct (IH H) as (seg & rest & Hs & Heq & Hno & Haf).
    exists (String a seg), rest. rewrite Hs. simpl. rewrite Eq.
    split; [reflexivity|]. split; [now rewrite Heq at 1|]. split; assumption.
Qed.

Lemma split_no_sep c s : str_in c s = false -> split c s = [s].
Proof.
  induction s as [|a s IH]; simpl; [reflexivity|].
  destruct (Ascii.eqb a c); [discriminate|].
  intros H. now rewrite (IH H).
Qed.


(* =================================================================== *)
(** *** Facts about the monad and the file operations *)
(* =================================================================== *)

Lemma bind_ok {A B} (m : M A) (f : A -> M B) w b w' :
  (m ≫= f) w = (Ok b, w') ->
  exists a w1, m w = (Ok a, w1) /\ f a w1 = (Ok b, w').
Proof.
  unfold mbind, M_bind. destruct (m w) as [[a|e] w1]; [eauto|discriminate].
Qed.

Lemma rows_of_insert path rows fs tr :
  rows_of path {| files := <[path := rows]> fs; trace := tr |} = rows.
Proof. unfold rows_of. simpl. now rewrite lookup_insert_eq. Qed.

Lemma rows_of_insert_ne path path' rows fs tr :
  path <> path' ->
  rows_of path' {| files := <[path := rows]> fs; trace := tr |}
  = rows_of path' {| files := fs; trace := tr |}.
Proof. intros H. unfold rows_of. simpl. now rewrite lookup_insert_ne. Qed.

(** Appending a result: the row goes to the end of the file when the row
    can be built, and the file keeps its rows when building it raises. *)
Lemma append_result_eq path model_name ds_config res ds_key w :
  append_result path model_name ds_config res ds_key w =
  match result_row model_name ds_config res ds_key with
  | Ok row =>
      (Ok tt, {| files := <[path := (rows_of path w ++ [row])%list]> (files w);
                 trace := trace w |})
  | Raise e =>
      (Raise e, {| files := <[path := rows_of path w]> (files w);
                   trace := trace w |})
  end.
Proof.
  unfold append_result, mbind, M_bind, open_append, lift, writerow.
  destruct (result_row model_name ds_config res ds_key); simpl; [|reflexivity].
  rewrite rows_of_insert. now rewrite insert_insert_eq.
Qed.

Lemma write_to_csv_eq results path term dataset_name w :
  write_to_csv results path term dataset_name w =
  match get_dataset_config dataset_name term with
  | Raise e => (Raise e, w)
  | Ok dataset_config =>
      append_result path "feedforward" dataset_config results
        (get_dataset_key dataset_name) w
  end.
Proof.
  unfold write_to_csv, append_result, mbind, M_bind, lift.
  destruct (get_dataset_config dataset_name term); reflexivity.
Qed.

(* ===================================================================== *)
(** *** Facts about result rows *)
(* ===================================================================== *)

Lemma metric0_ok results m v :
  metric0 results m = Ok v <->
  exists col, results !! m = Some col /\ col !! 0 = Some v.
Proof.
  unfold metric0, getitem, index, mbind, outcome_bind.
  destruct (results !! m) as [col|]; simpl.
  - destruct (col !! 0) as [v'|] eqn:E0; split.
    + intros [= <-]. eauto.
    + intros (col' & [= <-] & H). congruence.
    + discriminate.
    + intros (col' & [= <-] & H). congruence.
  - split; [discriminate|]. intros (col & H & _). discriminate.
Qed.

(** A row that could be built is, column by column, the value of the
    columns of the header. *)
Lemma result_row_inv model_name dataset_config results key row :
  result_row model_name dataset_config results key = Ok row ->
  exists p,
    dataset_properties_map !! key = Some p /\
    Forall2 (λ c x, field_of model_name dataset_config results p c = Ok x)
            columns row.
Proof.
  unfold result_row, mbind, outcome_bind, mret, outcome_ret.
  repeat match goal with
         | |- context [metric0 results ?m] =>
             destruct (metric0 results m) eqn:?; [|discriminate]
         end.
  unfold getitem. destruct (dataset_properties_map !! key) as [p|]; [|discriminate].
  intros [= <-]. exists p. split; [reflexivity|].
  unfold columns, metric_columns. simpl.
  repeat constructor; simpl; unfold mbind, outcome_bind;
    match goal with
    | H : metric0 results ?m = _ |- context [metric0 results ?m] =>
        rewrite H; reflexivity
    end.
Qed.

Lemma columns_metric i m :
  metric_columns !! i = Some m -> columns !! (2 + i) = Some (ColMetric m).
Proof.
  unfold columns, metric_columns.
  do 11 (destruct i as [|i]; [intros [= <-]; reflexivity|]).
  discriminate.
Qed.

Lemma header_columns : header = map column_title columns.
Proof. reflexivity. Qed.

(* ===================================================================== *)
(** *** One round of a loop *)
(* ===================================================================== *)

Lemma after_events_app evs1 evs2 w :
  after_events evs2 (after_events evs1 w) = after_events (evs1 ++ evs2) w.
Proof. unfold after_events. simpl. now rewrite <- app_assoc. Qed.

Lemma feedforward_pair_eq term name w :
  feedforward_pair term name w =
  if negb (bool_decide (term = "short")) then (Ok tt, w)
  else write_to_csv (evaluate_model (pair_dataset Feedforward name term))
         feedforward_csv term name
         (after_events (pair_events Feedforward name term) w).
Proof.
  unfold feedforward_pair. destruct (negb (bool_decide (term = "short"))); [reflexivity|].
  unfold perform_inference, check_if_multivariate, Dataset, call_evaluate_model,
    emit, mbind, M_bind, mret, M_ret, pair_dataset, pair_events, after_events.
  simpl. rewrite <- !app_assoc. simpl.
  destruct (bool_decide (1 < target_dim name term)%Z); reflexivity.
Qed.

Lemma chronos_pair_eq name term w :
  chronos_pair name term w =
  if skip_pair name term then (Ok tt, w)
  else match ds_key_freq name with
       | Raise e => (Raise e, w)
       | Ok (ds_key, ds_freq) =>
           append_result chronos_csv "chronos_bolt_base"
             (ds_key ++ "/" ++ ds_freq ++ "/" ++ term)
             (evaluate_model (pair_dataset Chronos name term)) ds_key
             (after_events (pair_events Chronos name term) w)
       end.
Proof.
  unfold chronos_pair. destruct (skip_pair name term); [reflexivity|].
  unfold mbind at 1. unfold M_bind, lift.
  destruct (ds_key_freq name) as [[ds_key ds_freq]|e]; [|reflexivity].
  unfold Dataset, call_evaluate_model, emit, mbind, M_bind, mret, M_ret,
    pair_dataset, pair_events, after_events.
  simpl. rewrite <- !app_assoc. simpl.
  destruct (bool_decide (target_dim name term = 1%Z)); reflexivity.
Qed.

Lemma moirai_pair_eq name term w :
  moirai_pair name term w =
  if skip_pair name term then (Ok tt, w)
  else match ds_key_freq name with
       | Raise e => (Raise e, w)
       | Ok (ds_key, ds_freq) =>
           append_result moirai_csv "moirai_small"
             (ds_key ++ "/" ++ ds_freq ++ "/" ++ term)
             (evaluate_model (pair_dataset Moirai name term)) ds_key
             (after_events (pair_events Moirai name term) w)
       end.
Proof.
  unfold moirai_pair. destruct (skip_pair name term); [reflexivity|].
  unfold mbind at 1. unfold M_bind, lift.
  destruct (ds_key_freq name) as [[ds_key ds_freq]|e]; [|reflexivity].
  unfold Dataset, call_evaluate_model, emit, mbind, M_bind, mret, M_ret,
    pair_dataset, pair_events, after_events.
  simpl. rewrite <- !app_assoc. reflexivity.
Qed.

(** A round that ends normally was either skipped, and then changed
    nothing, or made its library calls and added the row of its pair to the
    end of the results file. *)
Lemma notebook_pair_ok nb name term w w' :
  notebook_pair nb name term w = (Ok tt, w') ->
  if notebook_skips nb name term then w' = w
  else exists row,
         pair_row nb name term = Ok row /\
         w' = after_row (notebook_csv nb) row
                (after_events (pair_events nb name term) w).
Proof.
  destruct nb; simpl.
  - rewrite feedforward_pair_eq.
    destruct (negb (bool_decide (term = "short"))); [congruence|].
    rewrite write_to_csv_eq. unfold mbind, outcome_bind.
    destruct (get_dataset_config name term) as [cfg|e]; [|discriminate].
    rewrite append_result_eq.
    destruct (result_row _ _ _ _) as [row|e]; [|discriminate].
    intros [= <-]. exists row. split; reflexivity.
  - rewrite chronos_pair_eq.
    destruct (skip_pair name term); [congruence|].
    unfold mbind, outcome_bind.
    destruct (ds_key_freq name) as [[k f]|e]; [|discriminate].
    rewrite append_result_eq.
    destruct (result_row _ _ _ _) as [row|e]; [|discriminate].
    intros [= <-]. exists row. split; reflexivity.
  - rewrite moirai_pair_eq.
    destruct (skip_pair name term); [congruence|].
    unfold mbind, outcome_bind.
    destruct (ds_key_freq name) as [[k f]|e]; [|discriminate].
    rewrite append_result_eq.
    destruct (result_row _ _ _ _) as [row|e]; [|discriminate].
    intros [= <-]. exists row. split; reflexivity.
Qed.

(** Whatever the end of a round, its library calls are none or those of
    its pair. *)
Lemma notebook_pair_trace nb name term w :
  let w' := (notebook_pair nb name term w).2 in
  trace w' = trace w \/
  (notebook_skips nb name term = false /\
   trace w' = (trace w ++ pair_events nb name term)%list).
Proof.
  destruct nb; simpl.
  - rewrite feedforward_pair_eq.
    destruct (negb (bool_decide (term = "short"))); [now left|].
    right. split; [reflexivity|].
    rewrite write_to_csv_eq.
    destruct (get_dataset_config name term) as [cfg|e]; [|reflexivity].
    rewrite append_result_eq.
    destruct (result_row _ _ _ _); reflexivity.
  - rewrite chronos_pair_eq.
    destruct (skip_pair name term); [now left|].
    destruct (ds_key_freq name) as [[k f]|e]; [|now left].
    right. split; [reflexivity|].
    rewrite append_result_eq.
    destruct (result_row _ _ _ _); reflexivity.
  - rewrite moirai_pair_eq.
    destruct (skip_pair name term); [now left|].
    destruct (ds_key_freq name) as [[k f]|e]; [|now left].
    right. split; [reflexivity|].
    rewrite append_result_eq.
    destruct (result_row _ _ _ _); reflexivity.
Qed.

(* ===================================================================== *)
(** *** Loops *)
(* ===================================================================== *)

(** A loop that ends normally has added to an observed list what its
    rounds have added, in the order of the rounds. *)
Lemma for_each_ok_rel {A B C} (obs : world -> list B) (sel : A -> list C)
    (Q : C -> B -> Prop) (body : A -> M unit) :
  (forall x w w', body x w = (Ok tt, w') ->
     exists l, obs w' = (obs w ++ l)%list /\ Forall2 Q (sel x) l) ->
  forall xs w w', for_each xs body w = (Ok tt, w') ->
     exists l, obs w' = (obs w ++ l)%list /\ Forall2 Q (flat_map sel xs) l.
Proof.
  intros Hbody. induction xs as [|x xs IH]; simpl; intros w w' H.
  - injection H as <-. exists []. rewrite app_nil_r. split; constructor.
  - apply bind_ok in H as ([] & w1 & H1 & H2).
    apply Hbody in H1 as (l1 & E1 & F1).
    apply IH in H2 as (l2 & E2 & F2).
    exists (l1 ++ l2)%list. rewrite E2, E1, app_assoc.
    split; [reflexivity|]. now apply Forall2_app.
Qed.

(** Whatever its end, a loop has made the library calls of its rounds. *)
Lemma for_each_trace {A} (P : event -> Prop) (body : A -> M unit) :
  (forall x w, exists evs,
     trace (body x w).2 = (trace w ++ evs)%list /\ Forall P evs) ->
  forall xs w, exists evs,
     trace (for_each xs body w).2 = (trace w ++ evs)%list /\ Forall P evs.
Proof.
  intros Hbody. induction xs as [|x xs IH]; simpl; intros w.
  - exists []. rewrite app_nil_r. split; constructor.
  - destruct (Hbody x w) as (l1 & E1 & F1).
    unfold mbind, M_bind. destruct (body x w) as [[[]|e] w1]; simpl in *.
    + destruct (IH w1) as (l2 & E2 & F2).
      exists (l1 ++ l2)%list. rewrite E2, E1, app_assoc.
      split; [reflexivity|]. now apply Forall_app.
    + eauto.
Qed.

Lemma filter_flat_map {A B} (P : B -> Prop) `{forall x, Decision (P x)}
    (f : A -> list B) (l : list A) :
  filter P (flat_map f l) = flat_map (λ x, filter P (f x)) l.
Proof.
  induction l as [|x l IH]; simpl; [reflexivity|].
  now rewrite filter_app, IH.
Qed.

Lemma flat_map_round {A B} (P : B -> Prop) `{forall x, Decision (P x)}
    (f : A -> B) (s : B -> list B) (l : list A) :
  (forall x, x ∈ l -> s (f x) = filter P [f x]) ->
  flat_map (λ x, s (f x)) l = filter P (map f l).
Proof.
  induction l as [|x l IH]; simpl; intros Hs; [reflexivity|].
  rewrite Hs by apply list_elem_of_here.
  rewrite IH by (intros y Hy; apply Hs; now apply list_elem_of_further).
  now rewrite <- filter_app.
Qed.

Lemma evaluated_app tr1 tr2 :
  evaluated (tr1 ++ tr2) = (evaluated tr1 ++ evaluated tr2)%list.
Proof. unfold evaluated. apply flat_map_app. Qed.

Lemma evaluated_pair_events nb name term :
  evaluated (pair_events nb name term) = [(name, term)].
Proof. destruct nb; reflexivity. Qed.

(** On the three terms of the benchmark, a round is skipped exactly when
    its pair is not one of those its notebook evaluates. *)
Lemma round_pairs_selected nb name term :
  term ∈ terms ->
  round_pairs nb (name, term) = filter (selected nb) [(name, term)].
Proof.
  unfold terms. intros H.
  repeat (apply elem_of_cons in H as [->|H]); [| | |now apply elem_of_nil in H];
    rewrite filter_cons, filter_nil;
    destruct (decide (selected nb _)) as [Hs|Hs];
    destruct nb; unfold round_pairs, notebook_skips, skip_pair;
    unfold selected, short_term, claimed_selected in Hs; simpl in Hs |- *;
    repeat case_bool_decide; simpl; try discriminate; try reflexivity.
  all: try (destruct Hs; [discriminate|contradiction]).
  all: try (exfalso; apply Hs; auto; fail).
Qed.

Lemma selected_pairs_rounds nb :
  selected_pairs nb =
  match nb with
  | Feedforward =>
      flat_map (λ term,
        flat_map (λ name, round_pairs nb (name, term)) all_dataset_names) terms
  | Chronos | Moirai =>
      flat_map (λ name,
        flat_map (λ term, round_pairs nb (name, term)) terms) all_datasets
  end.
Proof.
  unfold selected_pairs, loop_pairs.
  destruct nb; rewrite filter_flat_map.
  - unfold terms. simpl. rewrite !app_nil_r.
    repeat f_equal; symmetry;
      match goal with
      | |- flat_map (λ name, round_pairs _ (name, ?t)) _ = _ =>
          apply (flat_map_round _ (λ name : string, (name, t)))
      end;
      intros name _; apply round_pairs_selected; unfold terms;
      repeat (apply elem_of_cons; (left; reflexivity) || right).
  - apply flat_map_ext. intros name. symmetry.
    apply (flat_map_round _ (λ term : string, (name, term))).
    intros term Ht. now apply round_pairs_selected.
  - apply flat_map_ext. intros name. symmetry.
    apply (flat_map_round _ (λ term : string, (name, term))).
    intros term Ht. now apply round_pairs_selected.
Qed.

Lemma notebook_pair_evaluated nb name term w w' :
  notebook_pair nb name term w = (Ok tt, w') ->
  exists l, evaluated (trace w') = (evaluated (trace w) ++ l)%list /\
            Forall2 eq (round_pairs nb (name, term)) l.
Proof.
  intros H. apply notebook_pair_ok in H. unfold round_pairs. simpl.
  destruct (notebook_skips nb name term).
  - subst w'. exists []. rewrite app_nil_r. split; constructor.
  - destruct H as (row & _ & ->). exists [(name, term)]. simpl.
    rewrite evaluated_app, evaluated_pair_events.
    split; [reflexivity|]. repeat constructor.
Qed.

Lemma notebook_pair_rows nb name term w w' :
  notebook_pair nb name term w = (Ok tt, w') ->
  exists l, rows_of (notebook_csv nb) w' = (rows_of (notebook_csv nb) w ++ l)%list /\
            Forall2 (λ p row, pair_row nb p.1 p.2 = Ok row)
                    (round_pairs nb (name, term)) l.
Proof.
  intros H. apply notebook_pair_ok in H. unfold round_pairs. simpl.
  destruct (notebook_skips nb name term).
  - subst w'. exists []. rewrite app_nil_r. split; constructor.
  - destruct H as (row & Hrow & ->). exists [row].
    unfold after_row. rewrite rows_of_insert.
    split; [reflexivity|]. constructor; [exact Hrow|constructor].
Qed.

(** What the loop of a notebook adds to an observed list when it ends
    normally: what the rounds of the pairs it evaluates add, in the order of
    the loop. *)
Lemma notebook_loop_obs {B} (obs : world -> list B)
    (Q : string * string -> B -> Prop) nb :
  (forall name term w w', notebook_pair nb name term w = (Ok tt, w') ->
     exists l, obs w' = (obs w ++ l)%list /\
               Forall2 Q (round_pairs nb (name, term)) l) ->
  forall w w', notebook_loop nb w = (Ok tt, w') ->
     exists l, obs w' = (obs w ++ l)%list /\ Forall2 Q (selected_pairs nb) l.
Proof.
  intros Hpair w w' H. rewrite selected_pairs_rounds.
  destruct nb; simpl in H.
  - revert w w' H. apply for_each_ok_rel. intros term.
    apply for_each_ok_rel. intros name. apply (Hpair name term).
  - revert w w' H. apply for_each_ok_rel. intros name.
    apply for_each_ok_rel. intros term. apply (Hpair name term).
  - revert w w' H. apply for_each_ok_rel. intros name.
    apply for_each_ok_rel. intros term. apply (Hpair name term).
Qed.

Lemma write_header_eq path w :
  write_header path w =
  (Ok tt, {| files := <[path := [map CStr header]]> (files w);
             trace := trace w |}).
Proof.
  unfold write_header, open_write, writerow, mbind, M_bind. simpl.
  rewrite rows_of_insert. simpl. now rewrite insert_insert_eq.
Qed.

Lemma notebook_run_eq nb w :
  notebook_run nb w =
  notebook_loop nb {| files := <[notebook_csv nb := [map CStr header]]> (files w);
                      trace := trace w |}.
Proof.
  destruct nb; simpl;
    unfold feedforward_run, chronos_run, moirai_run, mbind, M_bind;
    now rewrite write_header_eq.
Qed.

Lemma pair_events_flag_ok nb name term :
  Forall (event_flag_ok nb) (pair_events nb name term).
Proof.
  destruct nb; unfold pair_events, notebook_to_univariate;
    repeat constructor; simpl; try discriminate.
  - case_bool_decide; [lia|discriminate].
  - case_bool_decide; [discriminate|auto].
Qed.

Lemma pair_row_inv nb name term row :
  pair_row nb name term = Ok row ->
  exists dataset_config key,
    result_row (notebook_model nb) dataset_config
      (evaluate_model (pair_dataset nb name term)) key = Ok row.
Proof.
  destruct nb; unfold pair_row, mbind, outcome_bind; simpl.
  - destruct (get_dataset_config name term) as [cfg|]; [eauto|discriminate].
  - destruct (ds_key_freq name) as [[k f]|]; [eauto|discriminate].
  - destruct (ds_key_freq name) as [[k f]|]; [eauto|discriminate].
Qed.

(** The row of a round that was not skipped and ended normally. *)
Lemma notebook_pair_row nb name term w w' :
  notebook_pair nb name term w = (Ok tt, w') ->
  notebook_skips nb name term = false ->
  exists row dataset_config p,
    rows_of (notebook_csv nb) w' = (rows_of (notebook_csv nb) w ++ [row])%list /\
    Forall2 (λ c x, field_of (notebook_model nb) dataset_config
                      (evaluate_model (pair_dataset nb name term)) p c = Ok x)
            columns row.
Proof.
  intros H Hskip. apply notebook_pair_ok in H. rewrite Hskip in H.
  destruct H as (row & Hrow & ->).
  apply pair_row_inv in Hrow as (cfg & key & Hrow).
  apply result_row_inv in Hrow as (p & _ & Hcols).
  exists row, cfg, p. split; [|exact Hcols].
  unfold after_row. now rewrite rows_of_insert.
Qed.

(* ===================================================================== *)
(** *** Properties of the notebooks *)
(* ===================================================================== *)

(** C2, as amended.  A notebook that runs to its end has called
    [evaluate_model] once for each pair it selects, in the order of its loop,
    and its results file holds the header and then one row for each of these
    pairs, in the same order.  chronos.ipynb and moirai.ipynb go through the
    datasets and, for each, the terms, and select the pairs whose term is
    'short' or whose dataset is in the medium-to-long list; feedforward.ipynb
    goes through the terms and, for each, the datasets, and selects the pairs
    whose term is 'short'. *)
Theorem evaluation_loop_pairs nb w w' :
  notebook_run nb w = (Ok tt, w') ->
  evaluated (trace w') = (evaluated (trace w) ++ selected_pairs nb)%list /\
  exists rows,
    rows_of (notebook_csv nb) w' = map CStr header :: rows /\
    Forall2 (λ p row, pair_row nb p.1 p.2 = Ok row) (selected_pairs nb) rows.
Proof.
  rewrite notebook_run_eq. intros H. split.
  - destruct (notebook_loop_obs (λ w, evaluated (trace w)) eq nb
                (notebook_pair_evaluated nb) _ _ H) as (l & El & Fl).
    apply list_eq_Forall2 in Fl. subst l. exact El.
  - destruct (notebook_loop_obs (rows_of (notebook_csv nb)) _ nb
                (notebook_pair_rows nb) _ _ H) as (rows & Er & Fr).
    exists rows. rewrite rows_of_insert in Er. split; assumption.
Qed.

(** C3.  In a round that is not skipped and ends normally, the value
    written in the column of a metric M is [results[M][0]] for the table
    [results] that [evaluate_model] returned for the dataset of the round. *)
Theorem written_metrics_are_results nb name term w w' i m :
  notebook_pair nb name term w = (Ok tt, w') ->
  notebook_skips nb name term = false ->
  metric_columns !! i = Some m ->
  exists row col v,
    rows_of (notebook_csv nb) w' = (rows_of (notebook_csv nb) w ++ [row])%list /\
    evaluate_model (pair_dataset nb name term) !! m = Some col /\
    col !! 0 = Some v /\
    row !! (2 + i) = Some (CVal v).
Proof.
  intros H Hskip Hm.
  destruct (notebook_pair_row _ _ _ _ _ H Hskip) as (row & cfg & p & Hrows & Hcols).
  apply columns_metric in Hm.
  destruct (Forall2_lookup_l _ _ _ _ _ Hcols Hm) as (x & Hx & Hf).
  simpl in Hf. unfold mbind, outcome_bind in Hf.
  destruct (metric0 _ m) as [v|] eqn:Hv; [|discriminate].
  injection Hf as <-.
  apply metric0_ok in Hv as (col & Hcol & H0).
  exists row, col, v. auto.
Qed.



(** C8, as amended.  Whatever its end, a notebook evaluates a dataset with
    the [to_univariate] flag of its own rule: in feedforward.ipynb the flag
    is True exactly when the target dimension is above 1, in chronos.ipynb
    exactly when it is not 1, and in moirai.ipynb it is always False.  In the
    three notebooks no dataset of target dimension 1 is constructed with
    [to_univariate=True]. *)
Theorem to_univariate_flags nb w :
  exists evs,
    trace (notebook_run nb w).2 = (trace w ++ evs)%list /\
    Forall (event_flag_ok nb) evs /\
    (forall name term,
       match nb with
       | Feedforward =>
           notebook_to_univariate nb name term = true <-> (1 < target_dim name term)%Z
       | Chronos =>
           notebook_to_univariate nb name term = true <-> target_dim name term <> 1%Z
       | Moirai => notebook_to_univariate nb name term = false
       end).
Proof.
  rewrite notebook_run_eq.
  assert (Hloop : forall w0, exists evs,
             trace (notebook_loop nb w0).2 = (trace w0 ++ evs)%list /\
             Forall (event_flag_ok nb) evs).
  { assert (Hpair : forall name term w0, exists evs,
               trace (notebook_pair nb name term w0).2 = (trace w0 ++ evs)%list /\
               Forall (event_flag_ok nb) evs).
    { intros name term w0.
      destruct (notebook_pair_trace nb name term w0) as [->|[_ ->]].
      - exists []. rewrite app_nil_r. split; constructor.
      - eexists. split; [reflexivity|apply pair_events_flag_ok]. }
    destruct nb; unfold notebook_loop.
    - apply for_each_trace. intros term. apply for_each_trace.
      intros name. apply (Hpair name term).
    - apply for_each_trace. intros name. apply for_each_trace.
      intros term. apply (Hpair name term).
    - apply for_each_trace. intros name. apply for_each_trace.
      intros term. apply (Hpair name term). }
  specialize (Hloop {| files := <[notebook_csv nb := [map CStr header]]> (files w);
                       trace := trace w |}).
  destruct Hloop as (evs & Htr & Hok). exists evs.
  split; [exact Htr|]. split; [exact Hok|].
  intros name term. destruct nb; simpl; [| |reflexivity].
  - apply bool_decide_eq_true.
  - rewrite negb_true_iff. rewrite bool_decide_eq_false. reflexivity.
Qed.

(** On a target dimension of at least 1, the test of chronos.ipynb
    ([target_dim == 1]) and that of feedforward.ipynb ([target_dim > 1])
    give the same flag. *)
Lemma chronos_flag_feedforward_flag name term :
  (1 <= target_dim name term)%Z ->
  notebook_to_univariate Chronos name term
  = notebook_to_univariate Feedforward name term.
Proof.
  intros H. unfold notebook_to_univariate.
  repeat case_bool_decide; simpl; try reflexivity; lia.
Qed.

(** The append block of chronos.ipynb and moirai.ipynb keeps the rows of
    the file, leaves the other files alone and adds one row at the end when
    the row can be built. *)
Lemma append_result_appends path model_name ds_config res ds_key w :
  let r := append_result path model_name ds_config res ds_key w in
  trace r.2 = trace w /\
  (forall other, other <> path -> files r.2 !! other = files w !! other) /\
  match r.1 with
  | Ok _ => exists row, rows_of path r.2 = (rows_of path w ++ [row])%list
  | Raise _ => rows_of path r.2 = rows_of path w
  end.
Proof.
  simpl. rewrite append_result_eq.
  destruct (result_row model_name ds_config res ds_key) as [row|e]; simpl.
  - split; [reflexivity|]. split; [intros; now rewrite lookup_insert_ne|].
    exists row. now rewrite rows_of_insert.
  - split; [reflexivity|]. split; [intros; now rewrite lookup_insert_ne|].
    now rewrite rows_of_insert.
Qed.

(** [combine_datasets] leaves a pair out by the test of the chronos and
    moirai loops, on its own medium-to-long set. *)
Lemma combine_pair_skipped dataset_name term combined w :
  ~ claimed_selected med_long_datasets_names (dataset_name, term) ->
  combine_pair dataset_name term combined w = (Ok combined, w).
Proof.
  unfold claimed_selected, combine_pair. simpl. intros Hsel.
  rewrite bool_decide_eq_false_2 by tauto.
  rewrite (bool_decide_eq_false_2 (dataset_name ∈ _)) by tauto.
  reflexivity.
Qed.


(** When the name has a single '/', the frequency is all the text after
    it, and [get_dataset_config] is what the specification words. *)
Lemma get_dataset_config_one_slash name term :
  str_in slash (after_first slash name) = false ->
  get_dataset_config name term = claimed_dataset_config name term.
Proof.
  unfold get_dataset_config, claimed_dataset_config, get_dataset_freq,
    claimed_dataset_freq.
  destruct (str_in slash name) eqn:Hin; [|reflexivity].
  destruct (split_first slash name Hin) as (key & rest & Hs & _ & _ & Haf).
  rewrite Haf, Hs. intros Hno. rewrite (split_no_sep _ _ Hno). reflexivity.
Qed.

(* ===================================================================== *)
(** *** Further properties: errors and effects *)
(* ===================================================================== *)

(** X1.  [result_row] reads the eleven metrics in the order of the header
    and raises the exception of the first that cannot be read; when all can
    be read it raises [KeyError] for a key that is not in
    [dataset_properties_map], and builds the row otherwise. *)
Theorem result_row_first_failure model_name dataset_config results key :
  match first_raise (map (metric0 results) metric_columns) with
  | Some e => result_row model_name dataset_config results key = Raise e
  | None =>
      match dataset_properties_map !! key with
      | None =>
          result_row model_name dataset_config results key
          = Raise (KeyError key)
      | Some p =>
          exists row,
            result_row model_name dataset_config results key = Ok row
      end
  end.
Proof.
  unfold result_row, metric_columns, mbind, outcome_bind, getitem. simpl.
  repeat match goal with
         | |- context [metric0 results ?m] =>
             destruct (metric0 results m); simpl; [|reflexivity]
         end.
  destruct (dataset_properties_map !! key); simpl; eauto.
Qed.

(** X2.  How a call of [write_to_csv] fails.  When the dataset config
    cannot be built the call changes nothing, and the results file is not
    even created; when the config can be built and the row cannot, the file
    has been opened: it exists afterwards, with the rows it had. *)
Theorem write_to_csv_failure results path term dataset_name w e :
  (write_to_csv results path term dataset_name w).1 = Raise e ->
  let w' := (write_to_csv results path term dataset_name w).2 in
  (get_dataset_config dataset_name term = Raise e /\ w' = w) \/
  (exists dataset_config,
     get_dataset_config dataset_name term = Ok dataset_config /\
     result_row "feedforward" dataset_config results
       (get_dataset_key dataset_name) = Raise e /\
     files w' !! path = Some (rows_of path w) /\
     trace w' = trace w).
Proof.
  rewrite write_to_csv_eq.
  destruct (get_dataset_config dataset_name term) as [cfg|e']; simpl.
  - rewrite append_result_eq.
    destruct (result_row "feedforward" cfg results _) as [row|e''] eqn:Hrow;
      simpl; [discriminate|].
    intros [= ->]. right. exists cfg.
    split; [reflexivity|]. split; [exact Hrow|].
    split; [apply lookup_insert_eq|reflexivity].
  - intros [= ->]. now left.
Qed.

(** Every end of a round that is not skipped: the row of the pair is
    added after the library calls, or the round raises the exception of the
    row of its pair, before or after its library calls, and leaves the rows
    of the file as they were. *)
Lemma notebook_pair_cases nb name term w :
  notebook_skips nb name term = false ->
  let r := notebook_pair nb name term w in
  (exists row,
     pair_row nb name term = Ok row /\
     r = (Ok tt, after_row (notebook_csv nb) row
                   (after_events (pair_events nb name term) w))) \/
  (exists e,
     pair_row nb name term = Raise e /\
     r.1 = Raise e /\
     rows_of (notebook_csv nb) r.2 = rows_of (notebook_csv nb) w /\
     (forall other, other <> notebook_csv nb ->
        files r.2 !! other = files w !! other) /\
     (r.2 = w \/ trace r.2 = (trace w ++ pair_events nb name term)%list)).
Proof.
  destruct nb; simpl; intros Hskip.
  - rewrite feedforward_pair_eq, Hskip, write_to_csv_eq.
    unfold pair_row, mbind, outcome_bind.
    destruct (get_dataset_config name term) as [cfg|e]; simpl.
    + rewrite append_result_eq.
      destruct (result_row _ _ _ _) as [row|e]; simpl.
      * left. eauto.
      * right. exists e. rewrite rows_of_insert.
        repeat split; [intros; now rewrite lookup_insert_ne|now right].
    + right. exists e. repeat split. now right.
  - rewrite chronos_pair_eq, Hskip. unfold pair_row, mbind, outcome_bind.
    destruct (ds_key_freq name) as [[k f]|e]; simpl.
    + rewrite append_result_eq.
      destruct (result_row _ _ _ _) as [row|e]; simpl.
      * left. eauto.
      * right. exists e. rewrite rows_of_insert.
        repeat split; [intros; now rewrite lookup_insert_ne|now right].
    + right. exists e. repeat split. now left.
  - rewrite moirai_pair_eq, Hskip. unfold pair_row, mbind, outcome_bind.
    destruct (ds_key_freq name) as [[k f]|e]; simpl.
    + rewrite append_result_eq.
      destruct (result_row _ _ _ _) as [row|e]; simpl.
      * left. eauto.
      * right. exists e. rewrite rows_of_insert.
        repeat split; [intros; now rewrite lookup_insert_ne|now right].
    + right. exists e. repeat split. now left.
Qed.

Lemma notebook_pair_skipped nb name term w :
  notebook_skips nb name term = true ->
  notebook_pair nb name term w = (Ok tt, w).
Proof.
  destruct nb; simpl; intros Hskip.
  - now rewrite feedforward_pair_eq, Hskip.
  - now rewrite chronos_pair_eq, Hskip.
  - now rewrite moirai_pair_eq, Hskip.
Qed.

Lemma notebook_pair_progress nb name term w :
  progress nb (round_pairs nb (name, term)) w (notebook_pair nb name term w).
Proof.
  unfold progress, round_pairs. simpl.
  destruct (notebook_skips nb name term) eqn:Hskip.
  - rewrite (notebook_pair_skipped _ _ _ _ Hskip).
    exists [], [], []. simpl. rewrite !app_nil_r.
    repeat split; auto.
  - destruct (notebook_pair_cases nb name term w Hskip)
      as [(row & Hrow & ->)|(e & Hrow & He & Hrows & _ & Htr)].
    + exists [(name, term)], [], [row]. simpl.
      unfold after_row at 1. rewrite rows_of_insert.
      rewrite evaluated_app, evaluated_pair_events.
      repeat split; auto.
    + exists [], [(name, term)], []. simpl. rewrite !app_nil_r.
      split; [reflexivity|]. split; [exact Hrows|]. split; [constructor|].
      split.
      * destruct Htr as [-> | ->]; [now left|right].
        exists (name, term), [].
        now rewrite evaluated_app, evaluated_pair_events.
      * rewrite He. discriminate.
Qed.

Lemma for_each_progress {A} nb (sel : A -> list (string * string))
    (body : A -> M unit) :
  (forall x w, progress nb (sel x) w (body x w)) ->
  forall xs w, progress nb (flat_map sel xs) w (for_each xs body w).
Proof.
  intros Hbody. induction xs as [|x xs IH]; intros w; simpl.
  - exists [], [], []. simpl. rewrite !app_nil_r.
    repeat split; auto.
  - unfold mbind, M_bind. specialize (Hbody x w).
    destruct (body x w) as [[[]|e] w1].
    + destruct Hbody as (d1 & r1 & rows1 & Hsplit & Hrows & HF & _ & Hok).
      simpl in *. destruct (Hok eq_refl) as [-> Hev1].
      rewrite app_nil_r in Hsplit.
      destruct (IH w1) as (d2 & r2 & rows2 & Hs2 & Hrows2 & HF2 & Hev2 & Hok2).
      exists (d1 ++ d2)%list, r2, (rows1 ++ rows2)%list.
      split; [now rewrite Hsplit, Hs2, app_assoc|].
      split; [now rewrite Hrows2, Hrows, app_assoc|].
      split; [now apply Forall2_app|].
      split.
      * destruct Hev2 as [H2|(p & rest' & -> & H2)].
        -- left. now rewrite H2, Hev1, app_assoc.
        -- right. exists p, rest'. split; [reflexivity|].
           now rewrite H2, Hev1, !app_assoc.
      * intros H. destruct (Hok2 H) as [-> H2]. split; [reflexivity|].
        now rewrite H2, Hev1, app_assoc.
    + destruct Hbody as (d1 & r1 & rows1 & Hsplit & Hrows & HF & Hev & _).
      simpl in *.
      exists d1, (r1 ++ flat_map sel xs)%list, rows1.
      split; [now rewrite Hsplit, app_assoc|].
      split; [exact Hrows|]. split; [exact HF|].
      split; [|discriminate].
      destruct Hev as [H|(p & rest' & -> & H)]; [now left|right].
      exists p, (rest' ++ flat_map sel xs)%list. now split.
Qed.

(** X3.  Whatever its end, a notebook leaves in its results file the header
    and, after it, the rows of the first pairs it selects, in order: a run
    that raises keeps every row written before.  The evaluations made are
    those of the pairs with a row and, at most, that of the next pair, which
    was evaluated and not written.  A run that ends normally has done every
    pair. *)
Theorem notebook_run_progress nb w :
  let r := notebook_run nb w in
  exists done rest rows,
    selected_pairs nb = (done ++ rest)%list /\
    rows_of (notebook_csv nb) r.2 = map CStr header :: rows /\
    Forall2 (λ p row, pair_row nb p.1 p.2 = Ok row) done rows /\
    (evaluated (trace r.2) = (evaluated (trace w) ++ done)%list \/
     exists p rest', rest = p :: rest' /\
       evaluated (trace r.2) = (evaluated (trace w) ++ done ++ [p])%list) /\
    (r.1 = Ok tt -> rest = []).
Proof.
  simpl. rewrite notebook_run_eq.
  set (w1 := {| files := _; trace := trace w |}).
  assert (Hloop : progress nb (selected_pairs nb) w1 (notebook_loop nb w1)).
  { rewrite selected_pairs_rounds. destruct nb; unfold notebook_loop.
    - apply for_each_progress. intros term. apply for_each_progress.
      intros name. apply (notebook_pair_progress Feedforward name term).
    - apply for_each_progress. intros name. apply for_each_progress.
      intros term. apply (notebook_pair_progress Chronos name term).
    - apply for_each_progress. intros name. apply for_each_progress.
      intros term. apply (notebook_pair_progress Moirai name term). }
  destruct Hloop as (done & rest & rows & Hs & Hrows & HF & Hev & Hok).
  exists done, rest, rows. split; [exact Hs|].
  split; [rewrite Hrows; unfold w1; now rewrite rows_of_insert|].
  split; [exact HF|]. split; [exact Hev|].
  intros H. now destruct (Hok H).
Qed.




Lemma result_row_no_key model_name dataset_config results key :
  dataset_properties_map !! key = None ->
  exists e, result_row model_name dataset_config results key = Raise e.
Proof.
  intros Hkey. unfold result_row, mbind, outcome_bind, getitem.
  repeat match goal with
         | |- context [metric0 results ?m] =>
             destruct (metric0 results m); simpl; [|eauto]
         end.
  rewrite Hkey. eauto.
Qed.

(** On a name with '/', the block of chronos.ipynb and moirai.ipynb finds
    the key and the frequency without the map. *)
Lemma ds_key_freq_slash name :
  str_in slash name = true ->
  exists freq, ds_key_freq name = Ok (get_key name, freq).
Proof.
  intros Hin. unfold ds_key_freq, get_key. rewrite Hin.
  destruct (split_first slash name Hin) as (seg & rest & Hs & _).
  destruct (split_cons slash rest) as (s2 & segs & Hs2).
  rewrite Hs, Hs2. simpl. eauto.
Qed.

Lemma ds_key_freq_no_slash name :
  str_in slash name = false ->
  ds_key_freq name
  = match dataset_properties_map !! get_key name with
    | Some p => Ok (get_key name, frequency p)
    | None => Raise (KeyError (get_key name))
    end.
Proof.
  intros Hin. unfold ds_key_freq, get_key, getitem, mbind, outcome_bind.
  rewrite Hin. destruct (dataset_properties_map !! _); reflexivity.
Qed.

(** X5.  A dataset whose key is not in [dataset_properties_map] makes its
    round raise, and no row is written.  chronos.ipynb and moirai.ipynb find
    this out before any library call when the name has no '/', with
    [KeyError] on the key; when the name has a '/', and always in
    feedforward.ipynb, the round has constructed the dataset and evaluated
    the model before it raises. *)
Theorem unknown_key_round nb name term w :
  notebook_skips nb name term = false ->
  dataset_properties_map !! notebook_key nb name = None ->
  let r := notebook_pair nb name term w in
  exists e,
    r.1 = Raise e /\
    rows_of (notebook_csv nb) r.2 = rows_of (notebook_csv nb) w /\
    if evaluates_before_lookup nb name
    then trace r.2 = (trace w ++ pair_events nb name term)%list
    else r.2 = w /\ e = KeyError (notebook_key nb name).
Proof.
  destruct nb; simpl; intros Hskip Hkey.
  - rewrite feedforward_pair_eq, Hskip, write_to_csv_eq.
    destruct (get_dataset_config name term) as [cfg|e]; simpl; [|eauto].
    rewrite append_result_eq.
    destruct (result_row_no_key "feedforward" cfg
                (evaluate_model (pair_dataset Feedforward name term)) _ Hkey)
      as (e & ->).
    exists e. simpl. rewrite rows_of_insert. auto.
  - rewrite chronos_pair_eq, Hskip.
    destruct (str_in slash name) eqn:Hin.
    + destruct (ds_key_freq_slash name Hin) as (f & ->).
      rewrite append_result_eq.
      destruct (result_row_no_key "chronos_bolt_base"
                  (get_key name ++ "/" ++ f ++ "/" ++ term)
                  (evaluate_model (pair_dataset Chronos name term)) _ Hkey)
        as (e & ->).
      exists e. simpl. rewrite rows_of_insert. auto.
    + rewrite (ds_key_freq_no_slash name Hin), Hkey. eauto.
  - rewrite moirai_pair_eq, Hskip.
    destruct (str_in slash name) eqn:Hin.
    + destruct (ds_key_freq_slash name Hin) as (f & ->).
      rewrite append_result_eq.
      destruct (result_row_no_key "moirai_small"
                  (get_key name ++ "/" ++ f ++ "/" ++ term)
                  (evaluate_model (pair_dataset Moirai name term)) _ Hkey)
        as (e & ->).
      exists e. simpl. rewrite rows_of_insert. auto.
    + rewrite (ds_key_freq_no_slash name Hin), Hkey. eauto.
Qed.

(* ===================================================================== *)
(** *** Further properties: training data and dataset configs *)
(* ===================================================================== *)

Lemma combine_pair_eq dataset_name term combined w :
  combine_pair dataset_name term combined w =
  if decide (claimed_selected med_long_datasets_names (dataset_name, term))
  then
    let d := pair_dataset Feedforward dataset_name term in
    (Ok ((combined.1 ++ training_dataset d)%list,
         (combined.2 ++ validation_dataset d)%list),
     after_events (load_events d) w)
  else (Ok combined, w).
Proof.
  destruct (decide _) as [Hsel|Hsel].
  - unfold combine_pair, claimed_selected in *. simpl in Hsel.
    assert (Hcond : negb (bool_decide (term = "short"))
                    && negb (bool_decide (dataset_name ∈ med_long_datasets_names))
                    = false).
    { destruct Hsel as [Hs|Hm].
      - now rewrite (bool_decide_eq_true_2 _ Hs).
      - rewrite (bool_decide_eq_true_2 _ Hm). apply andb_false_r. }
    rewrite Hcond.
    unfold check_if_multivariate, Dataset, emit, mbind, M_bind, mret, M_ret,
      pair_dataset, load_events, after_events, notebook_to_univariate.
    simpl. rewrite <- !app_assoc. simpl.
    destruct (bool_decide (1 < target_dim dataset_name term)%Z); reflexivity.
  - now apply combine_pair_skipped.
Qed.

Lemma combine_terms_eq dataset_name ts combined w :
  let ds := map (λ p, pair_dataset Feedforward p.1 p.2)
              (filter (claimed_selected med_long_datasets_names)
                 (map (λ term, (dataset_name, term)) ts)) in
  for_fold ts (λ combined term, combine_pair dataset_name term combined)
    combined w
  = (Ok ((combined.1 ++ flat_map training_dataset ds)%list,
         (combined.2 ++ flat_map validation_dataset ds)%list),
     after_events (flat_map load_events ds) w).
Proof.
  revert combined w. induction ts as [|t ts IH]; intros combined w; simpl.
  - destruct combined, w. unfold after_events. simpl.
    now rewrite !app_nil_r.
  - unfold mbind, M_bind. rewrite combine_pair_eq, filter_cons.
    destruct (decide _) as [Hsel|Hsel]; simpl.
    + rewrite IH. simpl. rewrite after_events_app, <- !app_assoc. reflexivity.
    + apply IH.
Qed.

Lemma combine_names_eq names combined w :
  let ds := map (λ p, pair_dataset Feedforward p.1 p.2)
              (filter (claimed_selected med_long_datasets_names)
                 (flat_map (λ name, map (λ term, (name, term)) terms) names)) in
  for_fold names (λ combined dataset_name,
    for_fold terms (λ combined term,
      combine_pair dataset_name term combined) combined) combined w
  = (Ok ((combined.1 ++ flat_map training_dataset ds)%list,
         (combined.2 ++ flat_map validation_dataset ds)%list),
     after_events (flat_map load_events ds) w).
Proof.
  revert combined w.
  induction names as [|name names IH]; intros combined w.
  - destruct combined, w. unfold after_events. simpl.
    now rewrite !app_nil_r.
  - cbn [for_fold flat_map]. unfold mbind, M_bind.
    rewrite combine_terms_eq. cbv zeta. rewrite IH. cbv zeta.
    rewrite filter_app, map_app, !flat_map_app, after_events_app.
    cbn [fst snd]. now rewrite <- !app_assoc.
Qed.

(** X6.  [combine_datasets] never raises.  It returns the training
    entries and the validation entries of the datasets of the pairs whose
    term is 'short' or whose name is in the medium-to-long set, dataset by
    dataset and term by term, each dataset being loaded with
    [to_univariate] set exactly when its target dimension is above 1.  It
    constructs each of these datasets twice, evaluates no model and writes
    no file. *)
Theorem combine_datasets_spec w :
  combine_datasets w
  = (Ok (flat_map training_dataset combined_datasets,
         flat_map validation_dataset combined_datasets),
     {| files := files w;
        trace := (trace w ++ flat_map load_events combined_datasets)%list |}) /\
  evaluated (flat_map load_events combined_datasets) = [].
Proof.
  split.
  - unfold combine_datasets. rewrite combine_names_eq. reflexivity.
  - unfold combined_datasets.
    induction (filter _ _) as [|p ps IH]; [reflexivity|exact IH].
Qed.

Lemma split_app_sep c s t :
  str_in c s = false -> split c (s ++ String c t) = s :: split c t.
Proof.
  induction s as [|a s IH]; intros Hs.
  - change (split c (String c t) = "" :: split c t). simpl.
    now rewrite Ascii.eqb_refl.
  - rewrite append_cons. simpl in *.
    destruct (Ascii.eqb a c); [discriminate|]. now rewrite (IH Hs).
Qed.

(** X7.  A name made of a key and a frequency without '/' in them goes
    through unchanged: [get_dataset_config] of key/freq is key/freq/term
    whatever [dataset_properties_map] holds, and the block of chronos.ipynb
    and moirai.ipynb splits it back into the frequency and the normalised
    key. *)
Theorem config_of_key_freq key freq term :
  str_in slash key = false ->
  str_in slash freq = false ->
  get_dataset_config (key ++ "/" ++ freq) term
  = Ok (key ++ "/" ++ freq ++ "/" ++ term) /\
  ds_key_freq (key ++ "/" ++ freq) = Ok (get_key key, freq).
Proof.
  intros Hkey Hfreq.
  assert (Hin : str_in slash (key ++ "/" ++ freq) = true)
    by (rewrite str_in_app; simpl; apply orb_true_r).
  assert (Hsplit : split slash (key ++ "/" ++ freq) = [key; freq]).
  { change ("/" ++ freq) with (String slash freq).
    rewrite (split_app_sep _ _ _ Hkey). now rewrite (split_no_sep _ _ Hfreq). }
  split.
  - unfold get_dataset_config, get_dataset_freq, get_dataset_key.
    rewrite Hin, Hsplit. reflexivity.
  - unfold ds_key_freq, get_key. rewrite Hin, Hkey, Hsplit. reflexivity.
Qed.

(** X8.  On a name for which the two key normalisations agree,
    chronos.ipynb and moirai.ipynb build the dataset config that
    [get_dataset_config] of feedforward.ipynb builds, and fail as it
    fails. *)
Theorem chronos_config_is_get_dataset_config name term :
  get_key name = get_dataset_key name ->
  ('(ds_key, ds_freq) ← ds_key_freq name;
   Ok (ds_key ++ "/" ++ ds_freq ++ "/" ++ term))
  = get_dataset_config name term.
Proof.
  intros Hkey. unfold get_dataset_config, get_dataset_freq.
  destruct (str_in slash name) eqn:Hin.
  - destruct (ds_key_freq_slash name Hin) as (f & Hf).
    rewrite Hf, Hkey. unfold ds_key_freq in Hf. rewrite Hin in Hf.
    unfold mbind, outcome_bind in *.
    destruct (index (split slash name) 1) as [f'|]; [|discriminate].
    injection Hf as _ ->. reflexivity.
  - rewrite (ds_key_freq_no_slash name Hin), Hkey.
    unfold mbind, outcome_bind, getitem.
    destruct (dataset_properties_map !! _); reflexivity.
Qed.

End Harness.

(* ===================================================================== *)
(** ** The notebooks on the datasets they are set to run on *)
(* ===================================================================== *)

#[local] Abbreviation sample_run nb :=
  (notebook_run sample_properties sample_target_dim sample_evaluate_model
     feedforward_all_dataset_names chronos_all_datasets
     chronos_med_long_datasets nb empty_world).

#[local] Abbreviation sample_pair nb name term :=
  (notebook_pair sample_properties sample_target_dim sample_evaluate_model
     chronos_med_long_datasets nb name term empty_world).

Lemma evaluation_loop_pairs_witness :
  let w' := (sample_run Chronos).2 in
  evaluated (trace w')
  = [("m4_weekly", "short"); ("bizitobs_l2c/H", "short");
     ("bizitobs_l2c/H", "medium"); ("bizitobs_l2c/H", "long")] /\
  length (rows_of chronos_csv w') = 5.
Proof.
  intros w'.
  destruct (evaluation_loop_pairs sample_properties sample_target_dim
              sample_evaluate_model feedforward_all_dataset_names
              chronos_all_datasets chronos_med_long_datasets Chronos
              empty_world w') as (Hev & rows & Hrows & Hall).
  - vm_compute. reflexivity.
  - split.
    + rewrite Hev. vm_compute. reflexivity.
    + change chronos_csv with (notebook_csv Chronos).
      rewrite Hrows. simpl. f_equal.
      rewrite <- (Forall2_length _ _ _ Hall). vm_compute. reflexivity.
Defined.

(** The inference loop of feedforward.ipynb leaves out the medium and long
    terms of a dataset of the medium-to-long list: it runs to its end on the
    two datasets of the notebook, "bizitobs_l2c/H" is in the list, and the
    pair of "bizitobs_l2c/H" and "medium" is not evaluated; the results file
    has the header and two rows. *)
Lemma feedforward_skips_medium_and_long :
  let r := sample_run Feedforward in
  r.1 = Ok tt /\
  claimed_selected feedforward_med_long_datasets_names
    ("bizitobs_l2c/H", "medium") /\
  (("bizitobs_l2c/H", "medium") ∉ evaluated (trace r.2)) /\
  evaluated (trace r.2) = [("m4_hourly", "short"); ("bizitobs_l2c/H", "short")] /\
  length (rows_of feedforward_csv r.2) = 3.
Proof.
  split; [vm_compute; reflexivity|].
  split; [right; apply (bool_decide_unpack _); vm_compute; exact I|].
  split; [apply (bool_decide_unpack _); vm_compute; exact I|].
  split; vm_compute; reflexivity.
Qed.

Lemma written_metrics_are_results_witness :
  let w' := (sample_pair Chronos "bizitobs_l2c/H" "long").2 in
  exists row col v,
    rows_of chronos_csv w' = (rows_of chronos_csv empty_world ++ [row])%list /\
    sample_evaluate_model
      (pair_dataset sample_target_dim Chronos "bizitobs_l2c/H" "long")
      !! "MSIS" = Some col /\
    col !! 0 = Some v /\
    row !! (2 + 6) = Some (CVal v).
Proof.
  apply (written_metrics_are_results sample_properties sample_target_dim
           sample_evaluate_model chronos_med_long_datasets Chronos
           "bizitobs_l2c/H" "long" empty_world _ 6 "MSIS");
    vm_compute; reflexivity.
Defined.


(** moirai.ipynb evaluates a dataset of target dimension 7 without
    univariate conversion. *)
Lemma moirai_keeps_multivariate :
  let r := sample_run Moirai in
  r.1 = Ok tt /\
  (1 < sample_target_dim "bizitobs_l2c/H" "short")%Z /\
  (EEvaluate "bizitobs_l2c/H" "short" false ∈ trace r.2) /\
  (EDataset "bizitobs_l2c/H" "short" true ∉ trace r.2).
Proof.
  split; [vm_compute; reflexivity|].
  split; [vm_compute; reflexivity|].
  split; apply (bool_decide_unpack _); vm_compute; exact I.
Qed.


(** "solar/10T" has a config and no entry in the properties: the call
    raises on the key after it has opened the file. *)
Lemma write_to_csv_failure_witness :
  let w' :=
    (write_to_csv sample_properties sample_results "results/feedforward.csv"
       "short" "solar/10T" empty_world).2 in
  (get_dataset_config sample_properties "solar/10T" "short"
   = Raise (KeyError "solar") /\ w' = @empty_world Z) \/
  (exists dataset_config,
     get_dataset_config sample_properties "solar/10T" "short"
     = Ok dataset_config /\
     result_row sample_properties "feedforward" dataset_config sample_results
       (get_dataset_key "solar/10T") = Raise (KeyError "solar") /\
     files w' !! "results/feedforward.csv"
     = Some (rows_of "results/feedforward.csv" (@empty_world Z)) /\
     trace w' = trace (@empty_world Z)).
Proof.
  apply (write_to_csv_failure sample_properties sample_results
           "results/feedforward.csv" "short" "solar/10T" empty_world
           (KeyError "solar")).
  vm_compute. reflexivity.
Defined.


(** "solar" is not a key of the sample properties: chronos.ipynb raises
    before it constructs the dataset. *)
Lemma unknown_key_round_witness :
  let r := sample_pair Chronos "solar" "short" in
  exists e,
    r.1 = Raise e /\
    rows_of (notebook_csv Chronos) r.2
    = rows_of (notebook_csv Chronos) (@empty_world Z) /\
    if evaluates_before_lookup Chronos "solar"
    then trace r.2
         = (trace (@empty_world Z)
            ++ pair_events sample_target_dim Chronos "solar" "short")%list
    else r.2 = @empty_world Z /\ e = KeyError (notebook_key Chronos "solar").
Proof.
  apply (unknown_key_round sample_properties sample_target_dim
           sample_evaluate_model chronos_med_long_datasets Chronos
           "solar" "short" empty_world);
    vm_compute; reflexivity.
Defined.

Lemma config_of_key_freq_witness :
  get_dataset_config sample_properties ("LOOP_SEATTLE" ++ "/" ++ "5T") "short"
  = Ok ("LOOP_SEATTLE" ++ "/" ++ "5T" ++ "/" ++ "short") /\
  ds_key_freq sample_properties ("LOOP_SEATTLE" ++ "/" ++ "5T")
  = Ok (get_key "LOOP_SEATTLE", "5T").
Proof.
  apply (config_of_key_freq sample_properties "LOOP_SEATTLE" "5T" "short");
    reflexivity.
Defined.

Lemma chronos_config_is_get_dataset_config_witness :
  ('(ds_key, ds_freq) ← ds_key_freq sample_properties "bizitobs_l2c/H";
   Ok (ds_key ++ "/" ++ ds_freq ++ "/" ++ "long"))
  = get_dataset_config sample_properties "bizitobs_l2c/H" "long".
Proof.
  apply (chronos_config_is_get_dataset_config sample_properties
           "bizitobs_l2c/H" "long").
  reflexivity.
Defined.

(* ===================================================================== *)
(** ** Properties of the key functions *)
(* ===================================================================== *)

(** C4. For every dataset name, [get_dataset_key] returns the part of the
    name before its first '/' as it is written (no lowercasing) when the name
    contains '/', and the lowercased whole name when it does not. *)
Theorem get_dataset_key_spec (name : string) :
  if str_in slash name
  then exists rest,
         name = get_dataset_key name ++ String slash rest /\
         str_in slash (get_dataset_key name) = false
  else get_dataset_key name = lower name.
Proof.
  unfold get_dataset_key.
  destruct (str_in slash name) eqn:Hin; [|reflexivity].
  destruct (split_first slash name Hin) as (seg & rest & Hs & Heq & Hno & _).
  rewrite Hs. simpl. eauto.
Qed.

Example get_dataset_key_loop_seattle :
  get_dataset_key "LOOP_SEATTLE/5T" = "LOOP_SEATTLE".
Proof. reflexivity. Qed.

Example get_dataset_key_m4 : get_dataset_key "M4_Hourly" = "m4_hourly".
Proof. reflexivity. Qed.

(** C1. The two key normalisations differ on names of the benchmark:
    on "saugeenday/D" the notebooks' [get_dataset_key] keeps "saugeenday"
    where [get_key] gives the pretty name "saugeen", and on
    "LOOP_SEATTLE/5T" it keeps the capitals that [get_key] lowers. *)
Theorem get_dataset_key_get_key_differ :
  get_dataset_key "saugeenday/D" = "saugeenday" /\
  get_key "saugeenday/D" = "saugeen" /\
  get_dataset_key "LOOP_SEATTLE/5T" = "LOOP_SEATTLE" /\
  get_key "LOOP_SEATTLE/5T" = "loop_seattle" /\
  get_dataset_key "car_parts_with_missing" = "car_parts_with_missing" /\
  get_key "car_parts_with_missing" = "car_parts".
Proof. vm_compute. repeat split. Qed.

(** X26.  Where the two normalisations do agree: on a name whose part
    before the first '/' (the whole name when it has none) is in lower case
    already and is not a key of [pretty_names]. *)
Lemma get_key_get_dataset_key_agree name :
  let prefix := if str_in slash name then item0 (split slash name) else name in
  lower prefix = prefix ->
  pretty_names !! prefix = None ->
  get_key name = get_dataset_key name.
Proof.
  unfold get_key, get_dataset_key, dict_get. simpl.
  destruct (str_in slash name); intros Hlow Hpretty;
    rewrite Hlow, Hpretty; simpl; congruence.
Qed.

(** X27.  The key that the block of chronos.ipynb and moirai.ipynb builds
    is that of [get_key], whenever the block does not raise. *)
Lemma ds_key_freq_get_key m name key freq :
  ds_key_freq m name = Ok (key, freq) -> key = get_key name.
Proof.
  unfold ds_key_freq, get_key, mbind, outcome_bind.
  destruct (str_in slash name).
  - destruct (index _ 1); [|discriminate]. now intros [= <- _].
  - destruct (getitem m _); [|discriminate]. now intros [= <- _].
Qed.

Lemma get_key_get_dataset_key_agree_witness :
  get_key "bizitobs_l2c/H" = get_dataset_key "bizitobs_l2c/H".
Proof.
  apply (get_key_get_dataset_key_agree "bizitobs_l2c/H"); reflexivity.
Defined.

Lemma ds_key_freq_get_key_witness :
  "loop_seattle" = get_key "LOOP_SEATTLE/5T".
Proof.
  apply (ds_key_freq_get_key sample_properties "LOOP_SEATTLE/5T"
           "loop_seattle" "5T").
  reflexivity.
Defined.

(* ===================================================================== *)
(** ** Array tasks and (term, name) pairs *)
(* ===================================================================== *)

Lemma map_seq_lookup {A} (f : string -> A) (l : list string) :
  map (λ i, f (default EmptyString (l !! i))) (seq 0 (length l)) = map f l.
Proof.
  induction l as [|x l IH]; [reflexivity|].
  simpl. f_equal. rewrite <- seq_shift, map_map. exact IH.
Qed.

(** The tasks of a job with one block of [length names] tasks per term,
    listed by task id, get the pairs of the terms with the names, term by
    term. *)
Lemma block_pairs (ts names : list string) :
  (0 < length names)%nat ->
  map (λ i, (default EmptyString (ts !! (i / length names)%nat),
             default EmptyString (names !! (i mod length names)%nat)))
      (seq 0 (length ts * length names))
  = flat_map (λ t, map (pair t) names) ts.
Proof.
  intros Hn. induction ts as [|t ts IH]; [reflexivity|].
  simpl length. simpl Nat.mul. rewrite seq_app, map_app. simpl flat_map.
  f_equal.
  - rewrite <- (map_seq_lookup (pair t) names).
    apply map_ext_in. intros i Hi. apply in_seq in Hi.
    rewrite Nat.div_small, Nat.mod_small by lia. reflexivity.
  - rewrite <- IH.
    replace (0 + length names)%nat with (length names + 0)%nat by lia.
    rewrite <- (fmap_add_seq (length names) 0).
    change (map ?f ((λ y, (length names + y)%nat) <$> ?l))
      with (map f (map (λ y, (length names + y)%nat) l)).
    rewrite map_map.
    apply map_ext. intros i.
    replace (length names + i)%nat with (1 * length names + i)%nat by lia.
    rewrite Nat.div_add_l by lia.
    replace (1 * length names + i)%nat with (i + 1 * length names)%nat by lia.
    rewrite Nat.Div0.mod_add. reflexivity.
Qed.

Lemma task_pair_of_nat (names : list string) (i : nat) :
  Slurm.task_pair names (Z.of_nat i)
  = (default EmptyString (terms !! (i / length names)%nat),
     default EmptyString (names !! (i mod length names)%nat)).
Proof.
  unfold Slurm.task_pair, Slurm.term_index, Slurm.name_index, Slurm.sh_div,
    Slurm.sh_mod, Slurm.sh_elem.
  destruct (length names) as [|n] eqn:Hlen.
  - destruct names; [|discriminate].
    change (Z.of_nat 0) with 0%Z. rewrite Z.quot_0_r_ext by reflexivity.
    reflexivity.
  - rewrite Z.quot_div_nonneg, Z.rem_mod_nonneg by lia.
    rewrite <- Nat2Z.inj_div, <- Nat2Z.inj_mod, !Nat2Z.id. reflexivity.
Qed.

(** C9.  With a positive number of names, the decomposition of a task id
    into [task_id / num_names] and [task_id % num_names] sends the task ids
    0 .. 3 * num_names - 1 one-to-one onto the pairs of a term index in
    0 .. 2 and a name index in 0 .. num_names - 1; listed by task id, the
    tasks get the pairs of the three terms with the names, each pair once. *)
Theorem task_pairs_bijective (names : list string) (num_names : Z) :
  num_names = Z.of_nat (length names) ->
  (0 < num_names)%Z ->
  (forall task_id, (0 <= task_id < 3 * num_names)%Z ->
     (0 <= Slurm.term_index task_id num_names < 3)%Z /\
     (0 <= Slurm.name_index task_id num_names < num_names)%Z) /\
  (forall i j, (0 <= i < 3)%Z -> (0 <= j < num_names)%Z ->
     exists task_id,
       (0 <= task_id < 3 * num_names)%Z /\
       Slurm.term_index task_id num_names = i /\
       Slurm.name_index task_id num_names = j /\
       forall other, (0 <= other < 3 * num_names)%Z ->
         Slurm.term_index other num_names = i ->
         Slurm.name_index other num_names = j -> other = task_id) /\
  map (Slurm.task_pair names) (Slurm.task_ids (3 * length names))
  = flat_map (λ term, map (pair term) names) terms.
Proof.
  intros Hlen Hpos.
  unfold Slurm.term_index, Slurm.name_index, Slurm.sh_div, Slurm.sh_mod.
  split; [|split].
  - intros t Ht.
    rewrite Z.quot_div_nonneg, Z.rem_mod_nonneg by lia.
    split.
    + split; [apply Z.div_pos; lia|apply Z.div_lt_upper_bound; lia].
    + apply Z.mod_pos_bound. lia.
  - intros i j Hi Hj. exists (i * num_names + j)%Z.
    split; [nia|].
    rewrite Z.quot_div_nonneg, Z.rem_mod_nonneg by nia.
    split; [rewrite Z.div_add_l, Z.div_small by lia; lia|].
    split; [rewrite Z.add_comm, Z_mod_plus_full; apply Z.mod_small; lia|].
    intros other Ho. rewrite Z.quot_div_nonneg, Z.rem_mod_nonneg by lia.
    intros <- <-. pose proof (Z.div_mod other num_names). lia.
  - unfold Slurm.task_ids. rewrite map_map.
    rewrite (map_ext _ _ (task_pair_of_nat names)).
    apply (block_pairs terms names). lia.
Qed.

Lemma task_pairs_bijective_witness :
  map (Slurm.task_pair sample_names) (Slurm.task_ids (3 * length sample_names))
  = flat_map (λ term, map (pair term) sample_names) terms.
Proof.
  apply (task_pairs_bijective sample_names 3); [reflexivity|lia].
Defined.

Example task_pair_4 :
  Slurm.task_pair sample_names 4 = ("medium", "borg_cluster").
Proof. reflexivity. Qed.

(* ===================================================================== *)
(** ** The done marker of the load-datasets jobs *)
(* ===================================================================== *)

Lemma file_written_app path os1 os2 :
  JobScript.file_written path (os1 ++ os2)
  = JobScript.file_written path os1 || JobScript.file_written path os2.
Proof. unfold JobScript.file_written. apply existsb_app. Qed.

Lemma get_done_file_eq env sh :
  JobScript.get_done_file env sh
  = (JobScript.done_path_of env,
     JobScript.do_op (JobScript.Touch (JobScript.done_path_of env))
       (JobScript.get_done_dir env sh).2).
Proof. reflexivity. Qed.

(** The tail of a job script, from a state in which the marker has not
    been written: when [python] exits with 0 the script touches the marker,
    writes the end line in it and ends with status 0; otherwise its only
    effect is an error line on stderr, and it exits with status 1. *)
Lemma run_and_mark_spec clock python env cmd ok_msg err_msg done_msg sh :
  JobScript.file_written (JobScript.done_path_of env) (JobScript.ops sh) = false ->
  let r := JobScript.run_and_mark clock python env cmd ok_msg err_msg done_msg sh in
  if decide (python cmd = 0%Z)
  then r.2 = 0%Z /\
       JobScript.file_written (JobScript.done_path_of env) (JobScript.ops r.1) = true /\
       exists end_time,
         last (JobScript.ops r.1)
         = Some (JobScript.WriteFile (JobScript.done_path_of env)
                   ("[" ++ end_time ++ "] " ++ done_msg))
  else r.2 = 1%Z /\
       JobScript.ops r.1 = JobScript.ops sh /\
       JobScript.stdout r.1 = JobScript.stdout sh /\
       exists timestamp,
         JobScript.stderr r.1
         = app (JobScript.stderr sh) ["[" ++ timestamp ++ "] " ++ err_msg].
Proof.
  intros Hfresh. unfold JobScript.run_and_mark.
  destruct (decide (python cmd = 0%Z)) as [H0|H0].
  - rewrite H0, get_done_file_eq.
    remember (JobScript.done_path_of env) as path eqn:Hpath.
    simpl. split; [reflexivity|]. split.
    + rewrite !file_written_app. simpl.
      rewrite bool_decide_eq_true_2 by reflexivity.
      now rewrite !orb_true_r.
    + eexists. rewrite last_snoc. reflexivity.
  - apply Z.eqb_neq in H0. rewrite H0. simpl.
    repeat split. eexists. reflexivity.
Qed.

(** C10.  In both load-datasets job scripts the '.done' marker is written
    when, and only when, the [python load_dataset.py] command exits with
    status 0, and the script then ends with status 0; when the command exits
    with another status, the script writes an error line on stderr and exits
    with status 1, and its only file operation is the [mkdir -p logs] of its
    first line. *)
Theorem done_marker_iff_python_ok clock python env names :
  (let cmd := ["load_dataset.py";
               "--name=" ++ Slurm.sh_elem names (JobScript.SLURM_ARRAY_TASK_ID env)] in
   let r := JobScript.run_load_dataset clock python env names in
   if decide (python cmd = 0%Z)
   then r.2 = 0%Z /\
        JobScript.file_written (JobScript.done_path_of env) (JobScript.ops r.1) = true
   else r.2 = 1%Z /\
        JobScript.file_written (JobScript.done_path_of env) (JobScript.ops r.1) = false /\
        JobScript.ops r.1 = [JobScript.Mkdir "logs"] /\
        exists timestamp,
          JobScript.stderr r.1
          = ["[" ++ timestamp ++ "] ERROR: " ++ JobScript.SLURM_JOB_NAME env ++ "!"]) /\
  (let '(term, name) :=
     Slurm.task_pair names (JobScript.SLURM_ARRAY_TASK_ID env) in
   let cmd := ["load_dataset.py"; "--name"; name; "--term"; term] in
   let r := JobScript.run_load_dataset_terms clock python env names in
   if decide (python cmd = 0%Z)
   then r.2 = 0%Z /\
        JobScript.file_written (JobScript.done_path_of env) (JobScript.ops r.1) = true
   else r.2 = 1%Z /\
        JobScript.file_written (JobScript.done_path_of env) (JobScript.ops r.1) = false /\
        JobScript.ops r.1 = [JobScript.Mkdir "logs"] /\
        exists timestamp message,
          JobScript.stderr r.1
          = ["[" ++ timestamp ++ "] ERROR: Failed to load " ++ message ++ "!"]).
Proof.
  split.
  - simpl. unfold JobScript.run_load_dataset.
    match goal with
    | |- context [JobScript.run_and_mark clock python env ?c ?a ?b ?d ?s] =>
        pose proof (run_and_mark_spec clock python env c a b d s eq_refl) as H
    end.
    simpl in H. destruct (decide _) as [H0|H0].
    + destruct H as (Hcode & Hw & _). split; assumption.
    + destruct H as (Hcode & Hops & _ & ts & Herr).
      split; [exact Hcode|]. rewrite Hops. split; [reflexivity|].
      split; [reflexivity|]. exists ts. exact Herr.
  - destruct (Slurm.task_pair names _) as [term name] eqn:Hpair.
    simpl. unfold JobScript.run_load_dataset_terms. rewrite Hpair.
    match goal with
    | |- context [JobScript.run_and_mark clock python env ?c ?a ?b ?d ?s] =>
        pose proof (run_and_mark_spec clock python env c a b d s eq_refl) as H
    end.
    simpl in H. destruct (decide _) as [H0|H0].
    + destruct H as (Hcode & Hw & _). split; assumption.
    + destruct H as (Hcode & Hops & _ & ts & Herr).
      split; [exact Hcode|]. rewrite Hops. split; [reflexivity|].
      split; [reflexivity|]. eexists ts, _. exact Herr.
Qed.

Example run_load_dataset_terms_ok :
  JobScript.run_load_dataset_terms (λ _, "now") (λ _, 0%Z) sample_env sample_names
  = ({| JobScript.ops :=
          [ JobScript.Mkdir "logs";
            JobScript.Mkdir "./logs/load_datasets/done/77";
            JobScript.Touch "./logs/load_datasets/done/77/4.done";
            JobScript.WriteFile "./logs/load_datasets/done/77/4.done"
              "[now] Finished loading pretraining dataset 5: borg_cluster (medium)!" ];
        JobScript.stdout :=
          JobScript.stdout
            (JobScript.run_load_dataset_terms (λ _, "now") (λ _, 0%Z)
               sample_env sample_names).1;
        JobScript.stderr := ["[now] No errors!"];
        JobScript.ticks := 5 |}, 0%Z).
Proof. reflexivity. Qed.

Example run_load_dataset_terms_failed :
  JobScript.run_load_dataset_terms (λ _, "now") (λ _, 2%Z) sample_env sample_names
  = ({| JobScript.ops := [JobScript.Mkdir "logs"];
        JobScript.stdout :=
          JobScript.stdout
            (JobScript.run_load_dataset_terms (λ _, "now") (λ _, 2%Z)
               sample_env sample_names).1;
        JobScript.stderr :=
          ["[now] ERROR: Failed to load pretraining dataset 5: borg_cluster (medium)!"];
        JobScript.ticks := 3 |}, 1%Z).
Proof. reflexivity. Qed.

(* ===================================================================== *)
(** ** Further properties of [get_key] *)
(* ===================================================================== *)

Lemma lower_ascii_slash a :
  Ascii.eqb (lower_ascii a) slash = Ascii.eqb a slash.
Proof. destruct a as [[] [] [] [] [] [] [] []]; reflexivity. Qed.

Lemma lower_ascii_idem a : lower_ascii (lower_ascii a) = lower_ascii a.
Proof. destruct a as [[] [] [] [] [] [] [] []]; reflexivity. Qed.

Lemma lower_idem s : lower (lower s) = lower s.
Proof.
  induction s as [|a s IH]; simpl; [reflexivity|].
  now rewrite lower_ascii_idem, IH.
Qed.

Lemma str_in_lower s : str_in slash (lower s) = str_in slash s.
Proof.
  induction s as [|a s IH]; simpl; [reflexivity|].
  now rewrite lower_ascii_slash, IH.
Qed.

Lemma split_lower s : split slash (lower s) = map lower (split slash s).
Proof.
  induction s as [|a s IH]; simpl; [reflexivity|].
  rewrite lower_ascii_slash, IH.
  destruct (Ascii.eqb a slash); [reflexivity|].
  destruct (split slash s); reflexivity.
Qed.

Lemma item0_lower l : item0 (map lower l) = lower (item0 l).
Proof. destruct l; reflexivity. Qed.

(** The part of a name that [get_key] looks at has no '/'. *)
Lemma key_part_no_slash name :
  str_in slash (if str_in slash name then item0 (split slash name) else name)
  = false.
Proof.
  destruct (str_in slash name) eqn:Hin; [|exact Hin].
  destruct (split_first slash name Hin) as (seg & rest & Hs & _ & Hno & _).
  now rewrite Hs.
Qed.

(** A pretty name is in lower case, has no '/', and is not itself a key of
    [pretty_names]. *)
Lemma pretty_names_value k v :
  pretty_names !! k = Some v ->
  lower v = v /\ str_in slash v = false /\ pretty_names !! v = None.
Proof.
  unfold pretty_names. intros H.
  repeat (apply lookup_insert_Some in H as [[_ <-]|[_ H]];
          [vm_compute; repeat split|]).
  now rewrite lookup_empty in H.
Qed.

(** X9.  [get_key] returns a normalised key: it has no '/', it is in
    lower case, and [get_key] of it is the key itself. *)
Theorem get_key_normal name :
  str_in slash (get_key name) = false /\
  lower (get_key name) = get_key name /\
  get_key (get_key name) = get_key name.
Proof.
  pose proof (key_part_no_slash name) as Hno.
  unfold get_key at 1 2 3 5.
  set (part := if str_in slash name then item0 (split slash name) else name)
    in *.
  assert (Hnorm : str_in slash (dict_get pretty_names (lower part) (lower part))
                  = false /\
                  lower (dict_get pretty_names (lower part) (lower part))
                  = dict_get pretty_names (lower part) (lower part) /\
                  pretty_names !! dict_get pretty_names (lower part) (lower part)
                  = None).
  { unfold dict_get.
    destruct (pretty_names !! lower part) as [v|] eqn:Hp; simpl.
    - destruct (pretty_names_value _ _ Hp) as (Hl & Hs & Hn). auto.
    - rewrite str_in_lower, lower_idem. auto. }
  destruct Hnorm as (Hs & Hl & Hn).
  split; [exact Hs|]. split; [exact Hl|].
  unfold get_key. rewrite Hs, Hl. unfold dict_get at 1. now rewrite Hn.
Qed.

(** X10.  [get_key] does not see the case of the letters of a name. *)
Theorem get_key_case_insensitive name : get_key (lower name) = get_key name.
Proof.
  unfold get_key. rewrite str_in_lower, split_lower, item0_lower.
  destruct (str_in slash name); now rewrite lower_idem.
Qed.

(** X11.  [get_key] does not see what follows the first '/' of a name. *)
Theorem get_key_ignores_frequency key rest :
  str_in slash key = false ->
  get_key (key ++ String slash rest) = get_key key.
Proof.
  intros Hkey. unfold get_key.
  rewrite str_in_app, Hkey. simpl.
  now rewrite (split_app_sep _ _ _ Hkey).
Qed.

Lemma get_key_ignores_frequency_witness :
  get_key ("LOOP_SEATTLE" ++ String slash "5T") = get_key "LOOP_SEATTLE".
Proof. apply get_key_ignores_frequency. reflexivity. Defined.

(* ===================================================================== *)
(** ** chronos.ipynb: the log filter and the prediction loop *)
(* ===================================================================== *)

Lemma append_empty s t : s ++ t = "" -> s = "" /\ t = "".
Proof. destruct s; [auto|]. rewrite append_cons. discriminate. Qed.

Lemma startswith_spec s p : startswith s p = true <-> exists t, s = p ++ t.
Proof.
  revert s. induction p as [|b p IH]; intros s; simpl.
  - split; [eauto|]. intros _. destruct s; reflexivity.
  - destruct s as [|a s]; simpl.
    + split; [discriminate|]. intros (t & H). rewrite append_cons in H.
      discriminate.
    + rewrite andb_true_iff, Ascii.eqb_eq, IH. split.
      * intros (-> & t & ->). exists t. now rewrite append_cons.
      * intros (t & H). rewrite append_cons in H. injection H as -> ->. eauto.
Qed.

Lemma str_contains_spec needle hay :
  str_contains needle hay = true <->
  exists pre post, hay = pre ++ needle ++ post.
Proof.
  induction hay as [|a hay IH].
  - destruct needle as [|c needle]; simpl.
    + split; [|reflexivity]. intros _. exists "", "". reflexivity.
    + split; [discriminate|]. intros (pre & post & H). symmetry in H.
      apply append_empty in H as (_ & H). rewrite append_cons in H.
      discriminate.
  - cbn [str_contains].
    destruct (startswith (String a hay) needle) eqn:Hs.
    + apply startswith_spec in Hs as (t & Ht). split; [|reflexivity].
      intros _. exists "", t. exact Ht.
    + rewrite IH. split.
      * intros (pre & post & ->). exists (String a pre), post.
        now rewrite append_cons.
      * intros (pre & post & H). destruct pre as [|b pre].
        -- assert (Hc : startswith (String a hay) needle = true)
             by (apply startswith_spec; exists post; exact H).
           congruence.
        -- rewrite append_cons in H. injection H as -> ->. eauto.
Qed.

(** X12.  The log filter drops a record exactly when its message contains
    the text of the filter; a filter with an empty text drops every
    record. *)
Theorem warning_filter_spec self message :
  (WarningFilter.filter self message = false <->
   exists pre post,
     message = pre ++ WarningFilter.text_to_filter self ++ post) /\
  (WarningFilter.text_to_filter self = "" ->
   WarningFilter.filter self message = false).
Proof.
  unfold WarningFilter.filter. rewrite negb_false_iff. split.
  - apply str_contains_spec.
  - intros ->. apply str_contains_spec. exists "", message. reflexivity.
Qed.

Example warning_filter_mean :
  WarningFilter.filter
    {| WarningFilter.text_to_filter :=
         "The mean prediction is not stored in the forecast data" |}
    "The mean prediction is not stored in the forecast data; the median is being returned instead."
  = false.
Proof. reflexivity. Qed.

(** After [k] passes that run out of memory, the loop is at its [k]-th
    attempt with the batch size halved [k] times. *)
Lemma predict_loop_skip {Out X} (run_batches : nat -> nat -> ChronosPredictor.attempt Out X)
    k n batch_size fuel :
  (forall j, (j < k)%nat ->
     run_batches (n + j)%nat (batch_size / 2 ^ j)%nat
     = ChronosPredictor.OutOfMemory) ->
  ChronosPredictor.predict_loop run_batches (k + fuel) n batch_size
  = ChronosPredictor.predict_loop run_batches fuel (n + k)%nat
      (batch_size / 2 ^ k)%nat.
Proof.
  revert n batch_size. induction k as [|k IH]; intros n batch_size Hoom.
  - change (2 ^ 0)%nat with 1%nat.
    now rewrite Nat.add_0_r, Nat.div_1_r.
  - simpl Nat.add. cbn [ChronosPredictor.predict_loop].
    pose proof (Hoom 0%nat ltac:(lia)) as H0.
    change (2 ^ 0)%nat with 1%nat in H0.
    rewrite Nat.add_0_r, Nat.div_1_r in H0. rewrite H0.
    rewrite IH.
    + rewrite Nat.Div0.div_div, Nat.pow_succ_r'. f_equal. lia.
    + intros j Hj. specialize (Hoom (S j) ltac:(lia)).
      rewrite Nat.pow_succ_r', <- Nat.Div0.div_div in Hoom.
      now replace (S n + j)%nat with (n + S j)%nat by lia.
Qed.

(** X13.  The loop of [predict] halves the batch size after each pass that
    runs out of memory: its pass number [j] (from 0) has the batch size
    [batch_size // 2**j].  It ends with the first pass that does not run out
    of memory, whatever the batch size has become, with the outputs of that
    pass or with the exception it raised. *)
Theorem predict_loop_first_end {Out X}
    (run_batches : nat -> nat -> ChronosPredictor.attempt Out X)
    k batch_size fuel :
  (forall j, (j < k)%nat ->
     run_batches j (batch_size / 2 ^ j)%nat = ChronosPredictor.OutOfMemory) ->
  run_batches k (batch_size / 2 ^ k)%nat <> ChronosPredictor.OutOfMemory ->
  (k < fuel)%nat ->
  ChronosPredictor.predict_loop run_batches fuel 0 batch_size
  = ChronosPredictor.ended (run_batches k (batch_size / 2 ^ k)%nat).
Proof.
  intros Hoom Hend Hfuel.
  replace fuel with (k + S (fuel - S k))%nat by lia.
  rewrite predict_loop_skip by exact Hoom.
  cbn [ChronosPredictor.predict_loop]. simpl Nat.add.
  destruct (run_batches k _); [reflexivity|contradiction|reflexivity].
Qed.

(** As long as the passes run out of memory the loop goes on: it has no
    smallest batch size and no limit on the number of passes. *)
Lemma predict_loop_goes_on {Out X}
    (run_batches : nat -> nat -> ChronosPredictor.attempt Out X)
    batch_size fuel :
  (forall j, run_batches j (batch_size / 2 ^ j)%nat
             = ChronosPredictor.OutOfMemory) ->
  ChronosPredictor.predict_loop run_batches fuel 0 batch_size = None.
Proof.
  intros Hoom. replace fuel with (fuel + 0)%nat by lia.
  rewrite predict_loop_skip by (intros; apply Hoom). reflexivity.
Qed.

Lemma predict_loop_first_end_witness :
  ChronosPredictor.predict_loop
    (λ j batch_size : nat,
       if (batch_size <=? 256)%nat
       then ChronosPredictor.Outputs (X := unit) batch_size
       else ChronosPredictor.OutOfMemory) 5 0 1024
  = Some (inl 256%nat).
Proof.
  apply (predict_loop_first_end
           (λ j batch_size : nat,
              if (batch_size <=? 256)%nat
              then ChronosPredictor.Outputs (X := unit) batch_size
              else ChronosPredictor.OutOfMemory) 2 1024 5).
  - intros j Hj. destruct j as [|[|j]]; [reflexivity|reflexivity|lia].
  - discriminate.
  - lia.
Defined.

(* ===================================================================== *)
(** ** dataset_info.ipynb: the table of dataset properties *)
(* ===================================================================== *)

Lemma dataset_info_loop_spec {A} (dataset_properties : gmap string props)
    (dataset_attributes : string -> string -> A) df rows0 :
  match dataset_info_loop dataset_properties dataset_attributes df rows0 with
  | Ok rows =>
      exists new,
        rows = (rows0 ++ new)%list /\
        Forall2 (λ input row,
                   i_name row = input.1 /\
                   i_term row = input.2 /\
                   i_attributes row = dataset_attributes input.1 input.2 /\
                   exists p,
                     dataset_properties !! get_key input.1 = Some p /\
                     i_domain row = domain p /\
                     i_num_variates row = num_variates p)
                df new
  | Raise e =>
      exists before input after,
        df = (before ++ input :: after)%list /\
        Forall (λ done, is_Some (dataset_properties !! get_key done.1)) before /\
        dataset_properties !! get_key input.1 = None /\
        e = KeyError (get_key input.1)
  end.
Proof.
  revert rows0. induction df as [|[name term] df IH]; intros rows0; simpl.
  - exists []. rewrite app_nil_r. split; constructor.
  - unfold dataset_info_row, mbind, outcome_bind, getitem.
    destruct (dataset_properties !! get_key name) as [p|] eqn:Hp; simpl.
    + specialize (IH (rows0 ++ [{| i_name := name; i_term := term;
                                   i_attributes := dataset_attributes name term;
                                   i_domain := domain p;
                                   i_num_variates := num_variates p |}])%list).
      destruct (dataset_info_loop _ _ df _) as [rows|e].
      * destruct IH as (new & -> & HF). eexists (_ :: new).
        rewrite <- app_assoc. split; [reflexivity|].
        constructor; [|exact HF]. simpl. eauto 8.
      * destruct IH as (before & input & after & -> & HF & Hnone & ->).
        exists ((name, term) :: before), input, after.
        split; [reflexivity|]. split; [|auto].
        constructor; [simpl; eauto|exact HF].
    + exists [], (name, term), df. simpl. auto.
Qed.

(** X14.  The table of dataset_info.ipynb has one row for each row of the
    table it reads, in the same order, with the name and the term of that
    row, the attributes of its dataset, and the domain and number of variates
    that [dataset_properties] records for [get_key] of the name.  When the
    key of a name is not in [dataset_properties], the loop raises [KeyError]
    on the key of the first such name, and no table is written. *)
Theorem dataset_info_rows_spec {A} (dataset_properties : gmap string props)
    (dataset_attributes : string -> string -> A) df :
  match dataset_info_rows dataset_properties dataset_attributes df with
  | Ok rows =>
      Forall2 (λ input row,
                 i_name row = input.1 /\
                 i_term row = input.2 /\
                 i_attributes row = dataset_attributes input.1 input.2 /\
                 exists p,
                   dataset_properties !! get_key input.1 = Some p /\
                   i_domain row = domain p /\
                   i_num_variates row = num_variates p)
              df rows
  | Raise e =>
      exists before input after,
        df = (before ++ input :: after)%list /\
        Forall (λ done, is_Some (dataset_properties !! get_key done.1)) before /\
        dataset_properties !! get_key input.1 = None /\
        e = KeyError (get_key input.1)
  end.
Proof.
  unfold dataset_info_rows.
  pose proof (dataset_info_loop_spec dataset_properties dataset_attributes df [])
    as H.
  destruct (dataset_info_loop _ _ df []) as [rows|e]; [|exact H].
  destruct H as (new & -> & HF). exact HF.
Qed.

(* ===================================================================== *)
(** ** archive/pretrain_domain.ipynb: filling the domain column *)
(* ===================================================================== *)

Section PretrainDomainFacts.

Context {R : Type}.

#[local] Abbreviation row := (@PretrainDomain.out_row R).
#[local] Abbreviation with_domain := (@PretrainDomain.with_domain R).
#[local] Abbreviation at_set_domain := (@PretrainDomain.at_set_domain R).
#[local] Abbreviation o_name := (@PretrainDomain.o_name R).
#[local] Abbreviation last_selected := (@PretrainDomain.last_selected R).

(** The row at an index after a loop that sets the domain of the rows it
    picks among indexed rows. *)
Lemma set_picked_lookup (pick : row -> bool) d (items : list (nat * row))
    (acc : list row) k :
  foldl (λ acc '(j, r), if pick r then at_set_domain j d acc else acc)
        acc items !! k
  = if existsb (λ '(j, r), (j =? k)%nat && pick r) items
    then with_domain d <$> acc !! k
    else acc !! k.
Proof.
  revert acc. induction items as [|[j r] items IH]; intros acc; simpl;
    [reflexivity|].
  rewrite IH. destruct (pick r); simpl.
  - unfold PretrainDomain.at_set_domain.
    destruct (Nat.eqb_spec j k) as [->|Hne]; simpl.
    + rewrite list_lookup_alter_eq.
      destruct (acc !! k); simpl; now destruct (existsb _ _).
    + now rewrite list_lookup_alter_ne.
  - now rewrite andb_false_r.
Qed.

Lemma existsb_indexed {B} (pick : B -> bool) (df : list B) n k :
  existsb (λ '(j, r), (j =? k)%nat && pick r) (zip (seq n (length df)) df)
  = if (n <=? k)%nat
    then match df !! (k - n)%nat with Some r => pick r | None => false end
    else false.
Proof.
  revert n. induction df as [|r df IH]; intros n.
  - simpl. now destruct (n <=? k)%nat.
  - cbn [length seq zip_with existsb]. rewrite IH.
    destruct (Nat.eqb_spec n k) as [->|Hne].
    + rewrite Nat.leb_refl, Nat.sub_diag.
      replace (S k <=? k)%nat with false by (symmetry; apply Nat.leb_gt; lia).
      apply orb_false_r.
    + destruct (Nat.leb_spec n k) as [Hle|Hgt].
      * replace (S n <=? k)%nat with true by (symmetry; apply Nat.leb_le; lia).
        replace (k - n)%nat with (S (k - S n)) by lia. reflexivity.
      * replace (S n <=? k)%nat with false by (symmetry; apply Nat.leb_gt; lia).
        reflexivity.
Qed.

(** A loop over [iterrows] that sets the domain of the rows it picks. *)
Lemma set_picked_rows (pick : row -> bool) d (df : list row) :
  foldl (λ acc '(j, r), if pick r then at_set_domain j d acc else acc)
        df (PretrainDomain.iterrows df)
  = map (λ r, if pick r then with_domain d r else r) df.
Proof.
  apply list_eq. intros k.
  rewrite set_picked_lookup. unfold PretrainDomain.iterrows.
  rewrite existsb_indexed. simpl. rewrite Nat.sub_0_r.
  change (map ?f df !! k) with (f <$> df !! k) || rewrite list_lookup_fmap.
  destruct (df !! k) as [r|]; simpl; [|reflexivity].
  now destruct (pick r).
Qed.

Lemma gather_indices {B} (pick : B -> bool) (items : list (nat * B)) indices :
  foldl (λ indices '(j, r), if pick r then (indices ++ [j])%list else indices)
        indices items
  = (indices ++ map fst (List.filter (λ item, pick item.2) items))%list.
Proof.
  revert indices. induction items as [|[j r] items IH]; intros indices; simpl.
  - now rewrite app_nil_r.
  - rewrite IH. destruct (pick r); simpl; [|reflexivity].
    now rewrite <- app_assoc.
Qed.

Lemma set_gathered (pick : row -> bool) d (items : list (nat * row))
    (acc : list row) :
  foldl (λ acc index, at_set_domain index d acc) acc
        (map fst (List.filter (λ item, pick item.2) items))
  = foldl (λ acc '(j, r), if pick r then at_set_domain j d acc else acc)
          acc items.
Proof.
  revert acc. induction items as [|[j r] items IH]; intros acc; simpl;
    [reflexivity|].
  destruct (pick r); simpl; apply IH.
Qed.

Lemma last_selected_name selects df_input (r : row) :
  o_name (last_selected selects df_input r) = o_name r.
Proof.
  unfold PretrainDomain.last_selected. now destruct (last _).
Qed.


(** Passes that set, for each input row in turn, the domain of the output
    rows the input row selects, leave in each row the domain of the last
    input row that selects it. *)
Lemma passes_last_selected (selects : string * string -> string -> bool)
    (df_input : list (string * string)) (df_output : list row) :
  foldl (λ df input_row,
           map (λ r, if selects input_row (o_name r)
                     then with_domain input_row.2 r else r) df)
        df_output df_input
  = map (last_selected selects df_input) df_output.
Proof.
  induction df_input as [|input_row df_input IH] using rev_ind; simpl.
  - symmetry. apply map_id.
  - rewrite foldl_snoc, IH, map_map. apply map_ext. intros r.
    rewrite last_selected_name. unfold PretrainDomain.last_selected.
    rewrite List.filter_app. simpl.
    destruct (selects input_row (o_name r)).
    + rewrite last_snoc. now destruct (last _).
    + now rewrite app_nil_r.
Qed.

Lemma foldl_ext_eq {A B} (f g : A -> B -> A) l a :
  (forall a b, f a b = g a b) -> foldl f a l = foldl g a l.
Proof.
  intros H. revert a. induction l as [|b l IH]; intros a; simpl;
    [reflexivity|]. now rewrite H, IH.
Qed.

Lemma copy_matching_eq df_input (df_output : list row) :
  PretrainDomain.copy_matching df_input df_output
  = map (last_selected PretrainDomain.same_name df_input) df_output.
Proof.
  unfold PretrainDomain.copy_matching.
  rewrite <- passes_last_selected. apply foldl_ext_eq.
  intros df input_row.
  apply (set_picked_rows (λ r, bool_decide (input_row.1 = o_name r))).
Qed.

Lemma copy_by_prefix_eq df_input (df_output : list row) :
  PretrainDomain.copy_by_prefix df_input df_output
  = map (last_selected PretrainDomain.name_prefix df_input) df_output.
Proof.
  unfold PretrainDomain.copy_by_prefix.
  rewrite <- passes_last_selected. apply foldl_ext_eq.
  intros df input_row. cbv zeta.
  rewrite (gather_indices
             (λ r : row, startswith (o_name r)
                           (item0 (split "_" input_row.1)))).
  simpl.
  rewrite (set_gathered
             (λ r, startswith (o_name r) (item0 (split "_" input_row.1)))).
  apply (set_picked_rows
           (λ r, startswith (o_name r) (item0 (split "_" input_row.1)))).
Qed.

(** X15.  The cell that copies domains by name leaves each output row with
    the domain of the last input row of the same name, or with its own when
    no input row has its name; nothing else of the table changes. *)
Theorem copy_matching_spec df_input (df_output : list row) :
  PretrainDomain.copy_matching df_input df_output
  = map (last_selected PretrainDomain.same_name df_input) df_output.
Proof. apply copy_matching_eq. Qed.

(** X16.  The cell that copies domains by prefix leaves each output row
    with the domain of the last input row whose name, cut at its first
    underscore, is a prefix of the name of the row, or with its own when
    there is none. *)
Theorem copy_by_prefix_spec df_input (df_output : list row) :
  PretrainDomain.copy_by_prefix df_input df_output
  = map (last_selected PretrainDomain.name_prefix df_input) df_output.
Proof. apply copy_by_prefix_eq. Qed.



End PretrainDomainFacts.


(* ===================================================================== *)
(** ** combined_dataset.ipynb: the names of the available datasets *)
(* ===================================================================== *)

Lemma append_assoc_str (s t u : string) : (s ++ t) ++ u = s ++ t ++ u.
Proof.
  induction s as [|a s IH]; [reflexivity|]. now rewrite !append_cons, IH.
Qed.

Lemma foldl_append_names {B} (g : B -> string) (l : list B) (acc : list string) :
  foldl (λ acc x, app acc [g x]) acc l = (acc ++ map g l)%list.
Proof.
  revert acc. induction l as [|x l IH]; intros acc; simpl.
  - now rewrite app_nil_r.
  - now rewrite IH, <- app_assoc.
Qed.

Lemma list_dataset_eq dataset_names dataset_dir :
  DatasetListing.list_dataset dataset_names dataset_dir
  = (dataset_names
     ++ (if DatasetListing.listed dataset_dir
         then DatasetListing.names_of dataset_dir else []))%list.
Proof.
  unfold DatasetListing.list_dataset, DatasetListing.listed,
    DatasetListing.names_of.
  destruct (startswith _ "."); simpl; [now rewrite app_nil_r|].
  destruct (DatasetListing.is_dir (DatasetListing.self dataset_dir)); simpl;
    [|now rewrite app_nil_r].
  destruct (List.filter _ _) as [|freq_dir freq_dirs]; [reflexivity|].
  apply (foldl_append_names
           (λ freq_dir,
              DatasetListing.name (DatasetListing.self dataset_dir) ++ "/"
              ++ DatasetListing.name freq_dir)).
Qed.

Lemma list_datasets_from gift_eval_path (acc : list string) :
  foldl DatasetListing.list_dataset acc gift_eval_path
  = (acc ++ flat_map (λ dataset_dir,
                        if DatasetListing.listed dataset_dir
                        then DatasetListing.names_of dataset_dir else [])
                     gift_eval_path)%list.
Proof.
  revert acc. induction gift_eval_path as [|d ds IH]; intros acc; simpl.
  - now rewrite app_nil_r.
  - now rewrite list_dataset_eq, IH, <- app_assoc.
Qed.

Lemma list_datasets_eq gift_eval_path :
  DatasetListing.list_datasets gift_eval_path
  = flat_map (λ dataset_dir,
                if DatasetListing.listed dataset_dir
                then DatasetListing.names_of dataset_dir else [])
             gift_eval_path.
Proof. apply (list_datasets_from gift_eval_path []). Qed.

(** X19.  The listing goes through the entries in order.  It leaves out
    the files and the entries whose name starts with a dot; for a dataset
    directory that has subdirectories it gives one name per subdirectory,
    dataset/subdirectory, hidden subdirectories included, and not the name of
    the dataset; for one that has none it gives the name of the dataset. *)
Theorem list_datasets_spec gift_eval_path :
  DatasetListing.list_datasets gift_eval_path
  = flat_map (λ dataset_dir,
                if DatasetListing.listed dataset_dir
                then DatasetListing.names_of dataset_dir else [])
             gift_eval_path.
Proof. apply list_datasets_eq. Qed.

Example list_datasets_hidden :
  DatasetListing.list_datasets
    [ {| DatasetListing.self :=
           {| DatasetListing.name := ".cache"; DatasetListing.is_dir := true |};
         DatasetListing.iterdir := [] |};
      {| DatasetListing.self :=
           {| DatasetListing.name := "solar"; DatasetListing.is_dir := true |};
         DatasetListing.iterdir :=
           [ {| DatasetListing.name := "10T"; DatasetListing.is_dir := true |};
             {| DatasetListing.name := ".tmp"; DatasetListing.is_dir := true |};
             {| DatasetListing.name := "README"; DatasetListing.is_dir := false |} ] |};
      {| DatasetListing.self :=
           {| DatasetListing.name := "m4_hourly"; DatasetListing.is_dir := true |};
         DatasetListing.iterdir :=
           [ {| DatasetListing.name := "data.arrow"; DatasetListing.is_dir := false |} ] |} ]
  = ["solar/10T"; "solar/.tmp"; "m4_hourly"].
Proof. reflexivity. Qed.

Lemma get_dataset_config_joined m key freq term :
  str_in slash key = false ->
  str_in slash freq = false ->
  get_dataset_config m (key ++ "/" ++ freq) term
  = Ok ((key ++ "/" ++ freq) ++ "/" ++ term).
Proof.
  intros Hkey Hfreq.
  assert (Hin : str_in slash (key ++ "/" ++ freq) = true)
    by (rewrite str_in_app; simpl; apply orb_true_r).
  unfold get_dataset_config, get_dataset_freq, get_dataset_key.
  rewrite Hin. change ("/" ++ freq) with (String slash freq).
  rewrite (split_app_sep _ _ _ Hkey), (split_no_sep _ _ Hfreq). simpl.
  unfold mret, outcome_ret. f_equal.
  change (String slash freq) with ("/" ++ freq).
  now rewrite !append_assoc_str.
Qed.

(** X20.  In a tree whose names have no '/', every name the listing gives
    with a '/' is a dataset and a frequency that [get_dataset_config] takes
    apart and puts back: its config for a term is the name, '/', the term,
    and [dataset_properties_map] is not read. *)
Theorem listed_name_config m gift_eval_path dataset_name term :
  forallb DatasetListing.slash_free gift_eval_path = true ->
  dataset_name ∈ DatasetListing.list_datasets gift_eval_path ->
  str_in slash dataset_name = true ->
  get_dataset_config m dataset_name term
  = Ok (dataset_name ++ "/" ++ term).
Proof.
  intros Hfree Hin Hslash.
  rewrite list_datasets_eq in Hin. apply list_elem_of_In in Hin.
  apply in_flat_map in Hin as (d & Hd & Hn).
  rewrite forallb_forall in Hfree. specialize (Hfree d Hd).
  unfold DatasetListing.slash_free in Hfree.
  apply andb_true_iff in Hfree as (Hself & Hsub).
  apply negb_true_iff in Hself.
  destruct (DatasetListing.listed d); [|destruct Hn].
  unfold DatasetListing.names_of in Hn.
  destruct (List.filter _ _) as [|f fs] eqn:Hfilter.
  - destruct Hn as [<-|[]]. congruence.
  - apply in_map_iff in Hn as (f' & <- & Hf').
    rewrite <- Hfilter in Hf'. apply filter_In in Hf' as (Hf' & _).
    rewrite forallb_forall in Hsub. specialize (Hsub f' Hf').
    apply negb_true_iff in Hsub.
    now apply get_dataset_config_joined.
Qed.

Lemma listed_name_config_witness :
  get_dataset_config sample_properties "solar/10T" "long"
  = Ok ("solar/10T" ++ "/" ++ "long").
Proof.
  apply (listed_name_config sample_properties
           [ {| DatasetListing.self :=
                  {| DatasetListing.name := "solar";
                     DatasetListing.is_dir := true |};
                DatasetListing.iterdir :=
                  [ {| DatasetListing.name := "10T";
                       DatasetListing.is_dir := true |} ] |} ]).
  - reflexivity.
  - apply (bool_decide_unpack _). vm_compute. exact I.
  - reflexivity.
Defined.

(* ===================================================================== *)
(** ** The other job scripts *)
(* ===================================================================== *)

Lemma append_inj_l (p s t : string) : p ++ s = p ++ t -> s = t.
Proof.
  induction p as [|a p IH]; [auto|]. rewrite !append_cons.
  intros [= H]. auto.
Qed.

Lemma length_append (s t : string) :
  String.length (s ++ t) = (String.length s + String.length t)%nat.
Proof.
  induction s as [|a s IH]; [reflexivity|]. rewrite append_cons. simpl.
  now rewrite IH.
Qed.

Lemma append_inj_r (s t u : string) : s ++ u = t ++ u -> s = t.
Proof.
  revert t. induction s as [|a s IH]; intros [|b t] H.
  - reflexivity.
  - apply (f_equal String.length) in H. change ("" ++ u) with u in H.
    rewrite append_cons in H. simpl in H. rewrite length_append in H. lia.
  - apply (f_equal String.length) in H. change ("" ++ u) with u in H.
    rewrite append_cons in H. simpl in H. rewrite length_append in H. lia.
  - rewrite !append_cons in H. injection H as -> H. f_equal. auto.
Qed.

(** Two numbers that print alike are equal. *)
Lemma show_Z_inj a b : JobScript.show_Z a = JobScript.show_Z b -> a = b.
Proof.
  unfold JobScript.show_Z. intros H. apply DecimalZ.to_int_inj.
  assert (Hread : forall z,
             NilZero.int_of_string (NilZero.string_of_int (Z.to_int z))
             = Some (Z.to_int z)).
  { intros z. apply NilZero.isi; destruct z; simpl; try discriminate;
      intros [= Hn]; now apply Unsigned.to_uint_nonnil in Hn. }
  pose proof (Hread a) as Ha. rewrite H, Hread in Ha. congruence.
Qed.

(** X21.  Two tasks of one array job never share a marker file: for the
    same job name and the same non-empty array job id, [get_done_file] gives
    the same path only to the same task id. *)
Theorem done_paths_distinct env1 env2 :
  JobScript.SLURM_JOB_NAME env1 = JobScript.SLURM_JOB_NAME env2 ->
  JobScript.SLURM_ARRAY_JOB_ID env1 = JobScript.SLURM_ARRAY_JOB_ID env2 ->
  JobScript.SLURM_ARRAY_JOB_ID env1 <> "" ->
  JobScript.done_path_of env1 = JobScript.done_path_of env2 ->
  JobScript.SLURM_ARRAY_TASK_ID env1 = JobScript.SLURM_ARRAY_TASK_ID env2.
Proof.
  intros Hname Hjob Harray.
  unfold JobScript.done_path_of, JobScript.get_done_file,
    JobScript.get_done_dir. simpl.
  rewrite <- Hjob, <- Hname.
  rewrite (bool_decide_eq_false_2 _ Harray).
  intros H. apply append_inj_l in H. apply (append_inj_l "/") in H.
  apply append_inj_r in H. now apply show_Z_inj.
Qed.

Lemma done_paths_distinct_witness :
  JobScript.SLURM_ARRAY_TASK_ID sample_env
  = JobScript.SLURM_ARRAY_TASK_ID sample_env.
Proof.
  apply (done_paths_distinct sample_env sample_env);
    [reflexivity|reflexivity|discriminate|reflexivity].
Defined.



(** X23.  scripts/run_download_datasets.sh always ends with status 0.
    When the count of directories says that the split of the task is there
    (50 for task 0, 28 for task 1), it runs no command and writes no marker;
    otherwise it runs the download of the split, once, and writes the marker
    exactly when the download exits with status 0: a failed download is
    logged and still ends with status 0. *)
Theorem run_download_datasets_spec clock status count_dirs env :
  let r := Jobs.run_download_datasets clock status count_dirs env in
  let marker :=
    JobScript.file_written (Jobs.download_done_file env)
      (JobScript.ops (Jobs.sh r.1)) in
  r.2 = 0%Z /\
  if Jobs.already_downloaded count_dirs env
  then Jobs.execs r.1 = [] /\ marker = false
  else Jobs.execs r.1 = [Jobs.download_command env] /\
       marker = (status (Jobs.download_command env) =? 0)%Z.
Proof.
  unfold Jobs.run_download_datasets, Jobs.already_downloaded,
    Jobs.download_command, Jobs.run_then_mark.
  cbv zeta. fold (Jobs.download_done_file env).
  change ("GiftEval" ++ "Pretrain") with "GiftEvalPretrain".
  destruct (JobScript.SLURM_ARRAY_TASK_ID env =? 0)%Z eqn:H0; cbv beta iota.
  - change ("./datasets/" ++ "pretrain") with "./datasets/pretrain".
    change ("Salesforce/" ++ "GiftEvalPretrain")
      with "Salesforce/GiftEvalPretrain".
    apply Z.eqb_eq in H0. rewrite H0. simpl.
    destruct (count_dirs "./datasets/pretrain" =? 50)%Z; simpl;
      [repeat split|].
    destruct (status _ =? 0)%Z; simpl; [|repeat split].
    unfold JobScript.file_written. simpl.
    rewrite bool_decide_eq_true_2 by reflexivity. repeat split.
  - change ("./datasets/" ++ "train_test") with "./datasets/train_test".
    change ("Salesforce/" ++ "GiftEval") with "Salesforce/GiftEval".
    simpl.
    destruct ((JobScript.SLURM_ARRAY_TASK_ID env =? 1)%Z
              && (count_dirs "./datasets/train_test" =? 28)%Z); simpl;
      [repeat split|].
    destruct (status _ =? 0)%Z; simpl; [|repeat split].
    unfold JobScript.file_written. simpl.
    rewrite bool_decide_eq_true_2 by reflexivity. repeat split.
Qed.


Lemma replace_char_no_char c d s :
  c <> d -> str_in c (replace_char c d s) = false.
Proof.
  intros Hcd. induction s as [|a s IH]; simpl; [reflexivity|].
  destruct (Ascii.eqb a c) eqn:Hac.
  - destruct (Ascii.eqb d c) eqn:Hdc; [|exact IH].
    apply Ascii.eqb_eq in Hdc. congruence.
  - rewrite Hac. exact IH.
Qed.

Lemma replace_char_length c d s :
  String.length (replace_char c d s) = String.length s.
Proof. induction s as [|a s IH]; simpl; congruence. Qed.

Lemma subsets_slash_free i :
  str_in slash (Slurm.sh_elem Jobs.subsets i) = false.
Proof.
  unfold Slurm.sh_elem, Jobs.subsets.
  destruct (Z.to_nat i) as [|[|[|n]]]; reflexivity.
Qed.

(** X25.  The eval_taskbench job script does not look at what its four
    processes return: for every task it starts the four shards 0..3 of the
    model and the subset of the task, ends with status 0 and writes the
    marker of the pair; the name of the marker file has no '/', so the
    marker lies in the done directory itself, whatever '/' the model name
    has. *)
Theorem run_eval_taskbench_spec clock env :
  let r := Jobs.run_eval_taskbench clock env in
  let '(model_name, subset) := Jobs.taskbench_pair env in
  r.2 = 0%Z /\
  Jobs.execs r.1
  = map (λ gpu_id,
           ["python"; "eval_taskbench.py"; "--model_name"; model_name;
            "--subset"; subset; "--shard_id"; gpu_id;
            "--num_shards"; "4"; "--batch_size"; "16"])
        ["0"; "1"; "2"; "3"] /\
  JobScript.file_written (Jobs.taskbench_done_file env model_name subset)
    (JobScript.ops (Jobs.sh r.1)) = true /\
  str_in slash (Jobs.sanitize model_name ++ "_" ++ subset ++ ".done") = false.
Proof.
  unfold Jobs.taskbench_pair, Jobs.run_eval_taskbench. cbv zeta.
  set (model_name := Slurm.sh_elem Jobs.model_names _).
  set (subset := Slurm.sh_elem Jobs.subsets _).
  fold (Jobs.taskbench_done_file env model_name subset).
  split; [reflexivity|]. split; [reflexivity|]. split.
  - unfold JobScript.file_written. simpl.
    rewrite (bool_decide_eq_true_2 (_ = _) eq_refl). apply orb_true_r.
  - rewrite !str_in_app. unfold Jobs.sanitize.
    rewrite replace_char_no_char by discriminate.
    unfold subset. rewrite subsets_slash_free. reflexivity.
Qed.
